(** * Pommel Horse Aesthetics: taxonomy accessors and routine validators

    A shallow embedding of the lookup and validation functions of
    [pommel_horse_aesthetics_mcp] ([taxonomies/element_groups.py],
    [taxonomies/spatial_zones.py], [taxonomies/temporal_qualities.py],
    [taxonomies/form_assessment.py] and [server.py]) together with the
    properties their specification states about them.

    Modelling conventions:
    - a caller-supplied Python dict (a routine element, an execution record)
      is a [gmap string atom]; [d.get(k, v)] is [get d k v], [k in d] is
      [is_Some (d !! k)];
    - a Python [set] is a [gset]; [list(s)] is [elements s];
    - the static tables are dict literals, kept as association lists in the
      order of the source;
    - a Python [float] is a binary64 [PrimFloat.float];
    - a result dict with a fixed set of keys is a [Record]; one whose keys
      depend on the input is a [gmap string pyval]. *)

From Stdlib Require Import PrimFloat ZArith.
From stdpp Require Import gmap strings list fin_maps fin_sets.

Set Default Proof Using "Type".
Open Scope string_scope.
Open Scope list_scope.
Open Scope nat_scope.
#[local] Set Warnings "-clear-no-such-hyp".

(** ** Python values *)

(** Field values of caller-supplied records. The specification types these
    fields as strings and booleans; [None] is what an explicit null becomes.
    On these three kinds Python's [==] is structural equality and every value
    is hashable. *)
Inductive atom : Type :=
  | ANone
  | ABool (b : bool)
  | AStr (s : string).

#[global] Instance atom_eq_dec : EqDecision atom.
Proof. solve_decision. Defined.

#[global] Instance atom_countable : Countable atom.
Proof.
  refine (inj_countable'
    (fun a => match a with
              | ANone => inl ()
              | ABool b => inr (inl b)
              | AStr s => inr (inr s)
              end)
    (fun x => match x with
              | inl _ => ANone
              | inr (inl b) => ABool b
              | inr (inr s) => AStr s
              end) _).
  by intros [].
Defined.

(** Python truthiness: [bool(v)]. *)
Definition truthy (a : atom) : bool :=
  match a with
  | ANone => false
  | ABool b => b
  | AStr s => negb (String.eqb s "")
  end.

(** The static reference data: nested dict / list / str / bool literals. *)
#[warnings="-register-all"] Inductive pyval : Type :=
  | VNone
  | VBool (b : bool)
  | VStr (s : string)
  | VList (l : list pyval)
  | VDict (d : list (string * pyval)).

(** A dict literal, in source order. *)
Definition dict : Type := list (string * pyval).

Definition pyval_truthy (v : pyval) : bool :=
  match v with
  | VNone => false
  | VBool b => b
  | VStr s => negb (String.eqb s "")
  | VList l => match l with [] => false | _ => true end
  | VDict d => match d with [] => false | _ => true end
  end.

(** [d.get(k)] on a dict literal: the entry under [k], if any. *)
Fixpoint dict_get (d : dict) (k : string) : option pyval :=
  match d with
  | [] => None
  | (k', v) :: d' => if String.eqb k' k then Some v else dict_get d' k
  end.

(** [k in d]. *)
Definition dict_mem (d : dict) (k : string) : bool :=
  bool_decide (is_Some (dict_get d k)).

(** [v == s] for a [str] [s]: only an equal string compares equal. *)
Definition pyval_eq_str (v : option pyval) (s : string) : bool :=
  match v with
  | Some (VStr s') => String.eqb s' s
  | _ => false
  end.

(** The dict behind a value; [None] when the value is not a dict (subscripting
    or [.get] on it would raise). *)
Definition as_dict (v : pyval) : option dict :=
  match v with
  | VDict d => Some d
  | _ => None
  end.

(** [len(v)]; [None] where Python raises a [TypeError]. The length of a
    string counts its bytes. *)
Definition py_len (v : pyval) : option nat :=
  match v with
  | VStr s => Some (String.length s)
  | VList l => Some (length l)
  | VDict d => Some (length d)
  | VNone | VBool _ => None
  end.

(** [d.get(k, default)] on a caller-supplied record. *)
Definition get (d : gmap string atom) (k : string) (default : atom) : atom :=
  match d !! k with
  | Some v => v
  | None => default
  end.

(** ** Element groups ([taxonomies/element_groups.py]) *)

Module element_groups.

Definition ELEMENT_GROUPS : dict :=
  [
    ("scissors_single_leg", VDict [
      ("id", VStr "EG_I");
      ("name", VStr "Scissors & Single-Leg Work");
      ("description", VStr "Pendulum swings with separated legs, single-leg cuts and transfers");
      ("visual_signature", VStr "Split geometry with asymmetric leg positions");
      ("movements", VDict [
        ("basic_scissor", VDict [
          ("pattern", VStr "One leg forward, one back, switching over pommel");
          ("amplitude", VStr "Legs swing above shoulder height");
          ("separation", VStr "Maximum leg spread");
          ("rhythm", VStr "Pendulum timing")]);
        ("double_scissor", VDict [
          ("pattern", VStr "Two consecutive scissors in sequence");
          ("complexity", VStr "Maintains momentum through switches");
          ("visual", VStr "Continuous split geometry")]);
        ("traveling_scissor", VDict [
          ("pattern", VStr "Scissor that traverses length of horse");
          ("example", VStr "Mikulak (D value)");
          ("spatial", VStr "End-to-end translation")]);
        ("scissor_to_handstand", VDict [
          ("pattern", VStr "Scissor culminating in vertical position");
          ("difficulty", VStr "D value");
          ("visual", VStr "Pendulum to vertical transition")])]);
      ("placement", VStr "Typically at routine beginning for momentum generation");
      ("form_requirements", VList [
        VStr "Legs above shoulder height";
        VStr "Maximum leg separation";
        VStr "Pointed toes";
        VStr "Hip thrust forward at center"])]);
    ("circles_flairs", VDict [
      ("id", VStr "EG_II");
      ("name", VStr "Circles & Flairs");
      ("description", VStr "Continuous rotational patterns - foundation of pommel horse work");
      ("visual_signature", VStr "Horizontal body rotation with legs as radius");
      ("movements", VDict [
        ("double_leg_circle", VDict [
          ("pattern", VStr "Both legs together swinging 360° around horse");
          ("body_position", VStr "Straight, horizontal to ground");
          ("form", VStr "Legs together, toes pointed, body extended");
          ("rhythm", VStr "Even, metronomic tempo");
          ("critical_phases", VDict [
            ("quarter", VStr "Push initiation, direction generation");
            ("three_quarter", VStr "Hand switch, continuity maintenance")])]);
        ("flair", VDict [
          ("pattern", VStr "Circle with legs straddled wide");
          ("visual", VStr "Elevated hips, 'floating' appearance");
          ("straddle", VStr "Maximum leg separation during rotation");
          ("purpose", VStr "Direction changes, visual impact");
          ("example", VStr "Thomas flair")]);
        ("russian", VDict [
          ("pattern", VStr "Circle maintaining front support throughout");
          ("hand_movement", VStr "Hands move to stay in front");
          ("visual", VStr "Continuous forward-facing position")]);
        ("spindle", VDict [
          ("pattern", VStr "Body rotation during circle");
          ("complexity", VStr "Maintains tempo while rotating");
          ("visual", VStr "Spiral trajectory")])]);
      ("spatial_variations", VDict [
        ("between_pommels", VStr "Widest support, beginner starting point");
        ("single_pommel", VStr "Advanced, requires precise balance");
        ("saddle_circles", VStr "Center section, higher difficulty value");
        ("end_circles", VStr "Apparatus ends, base difficulty")]);
      ("tempo_qualities", VList [
        VStr "Metronomic rhythm";
        VStr "Muscle memory execution";
        VStr "Even velocity throughout";
        VStr "No pauses or hesitations"])]);
    ("travels", VDict [
      ("id", VStr "EG_III");
      ("name", VStr "Travels");
      ("description", VStr "Circles that translate across the horse length");
      ("visual_signature", VStr "Rotational motion with lateral displacement");
      ("movements", VDict [
        ("magyar", VDict [
          ("direction", VStr "Forward travel");
          ("difficulty", VStr "D value");
          ("pattern", VStr "Circles progressing toward horse end");
          ("visual", VStr "Forward momentum with rotation")]);
        ("sivado", VDict [
          ("direction", VStr "Backward travel");
          ("difficulty", VStr "D value");
          ("pattern", VStr "Circles progressing toward opposite end");
          ("form", VStr "Open hips and chest emphasized");
          ("visual", VStr "Reverse momentum with rotation")]);
        ("roth", VDict [
          ("pattern", VStr "Single Russian travel");
          ("difficulty", VStr "D value");
          ("technique", VStr "Front support maintained during translation")]);
        ("wu_guonian", VDict [
          ("pattern", VStr "Double Russian travel");
          ("difficulty", VStr "E value");
          ("complexity", VStr "Two rotations during translation")])]);
      ("spatial_coverage", VList [
        VStr "Full length traversal most common";
        VStr "Partial travels possible";
        VStr "Zone transition management";
        VStr "Momentum preservation critical"]);
      ("technical_requirements", VList [
        VStr "Maintain circle quality during translation";
        VStr "Smooth zone transitions";
        VStr "Consistent tempo throughout";
        VStr "Precise hand placement timing"])]);
    ("spindles_handstands", VDict [
      ("id", VStr "EG_IV");
      ("name", VStr "Spindles & Handstands");
      ("description", VStr "Rotational variations and vertical positions");
      ("visual_signature", VStr "Dimensional complexity and static-dynamic contrast");
      ("movements", VDict [
        ("spindle_basic", VDict [
          ("pattern", VStr "Body rotation during circle work");
          ("visual", VStr "Twist added to circular motion");
          ("difficulty_modifier", VStr "Location affects value")]);
        ("full_spindle_end", VDict [
          ("location", VStr "End of horse");
          ("difficulty", VStr "D value");
          ("pattern", VStr "Complete rotation on end section")]);
        ("full_spindle_saddle", VDict [
          ("location", VStr "Saddle (center)");
          ("difficulty", VStr "F value (upgraded from D)");
          ("complexity", VStr "More challenging support position")]);
        ("kehr_variations", VDict [
          ("pattern", VStr "360° turn on one arm and pommel");
          ("sohn", VStr "D value");
          ("bezugo", VStr "E value");
          ("efficiency", VStr "High value in single circle");
          ("visual", VStr "One-armed rotational pivot")]);
        ("handstand_element", VDict [
          ("pattern", VStr "Vertical static position");
          ("placement", VStr "Start or end of routine");
          ("form", VStr "Control and stability required");
          ("deduction_trigger", VStr "Show of strength, pausing, lowering")])])]);
    ("dismounts", VDict [
      ("id", VStr "EG_V");
      ("name", VStr "Dismounts");
      ("description", VStr "Exit elements - now their own element group (2025-28 cycle)");
      ("visual_signature", VStr "Final impression, routine punctuation");
      ("scoring_innovation", VStr "Counts twice - as element AND as EG credit");
      ("types", VDict [
        ("russian_dismount", VDict [
          ("pattern", VStr "Exit through Russian position");
          ("highest_value", VStr "Triple Russian (D value)");
          ("visual", VStr "Rotational exit")]);
        ("handstand_dismount", VDict [
          ("pattern", VStr "Exit through vertical position");
          ("more_common", VBool true);
          ("difficulty_factors", VList [
            VStr "Entry type";
            VStr "Pirouetting (rotation during handstand)";
            VStr "Turn degrees"]);
          ("highest_value", VStr "Stockli to handstand with 450° turn (E value)");
          ("example", VStr "1.25 rotations")])]);
      ("execution_requirements", VList [
        VStr "Stuck landing essential";
        VStr "No steps or hops";
        VStr "Vertical alignment in handstand";
        VStr "Clean entry from circle work"]);
      ("strategic_importance", VStr "Double scoring makes high-value dismounts critical")])].

(** [get_element_group]: the first group, in table order, whose ["id"] or
    whose key equals [group_id]; Python's [None] when there is none. *)
Fixpoint get_element_group_in (groups : dict) (group_id : string) : option pyval :=
  match groups with
  | [] => None
  | (key, group) :: rest =>
      if pyval_eq_str (d ← as_dict group; dict_get d "id") group_id
         || String.eqb key group_id
      then Some group
      else get_element_group_in rest group_id
  end.

Definition get_element_group (group_id : string) : option pyval :=
  get_element_group_in ELEMENT_GROUPS group_id.

Definition get_all_element_groups : dict := ELEMENT_GROUPS.


(** [get_movements_by_group]; [None] would be the [AttributeError] of
    [.get] on a group that is not a dict. *)
Definition get_movements_by_group (group_id : string) : option pyval :=
  match get_element_group group_id with
  | Some group =>
      if pyval_truthy group
      then d ← as_dict group; Some (default (VDict []) (dict_get d "movements"))
      else Some (VDict [])
  | None => Some (VDict [])
  end.

End element_groups.

(** ** Spatial zones ([taxonomies/spatial_zones.py]) *)

Module spatial_zones.

Definition SPATIAL_ZONES : dict :=
  [
    ("apparatus_sections", VDict [
      ("end_left", VDict [
        ("name", VStr "Left End");
        ("description", VStr "Leftmost section of horse");
        ("support_width", VStr "Narrow, single pommel or leather");
        ("difficulty_baseline", VStr "Base value for end work");
        ("common_uses", VList [
          VStr "Circles on single pommel";
          VStr "End spindles (D value)";
          VStr "Dismount preparation"]);
        ("stability", VStr "Challenging - limited support area")]);
      ("saddle", VDict [
        ("name", VStr "Saddle (Center)");
        ("description", VStr "Central section between pommels");
        ("support_width", VStr "Widest section, both pommels available");
        ("difficulty_modifier", VStr "Increases value of skills (e.g., D→F for spindle)");
        ("common_uses", VList [
          VStr "Beginner circle practice";
          VStr "Wide support base";
          VStr "High-value skill location"]);
        ("stability", VStr "Most stable - maximum support")]);
      ("end_right", VDict [
        ("name", VStr "Right End");
        ("description", VStr "Rightmost section of horse");
        ("support_width", VStr "Narrow, single pommel or leather");
        ("difficulty_baseline", VStr "Base value for end work");
        ("common_uses", VList [
          VStr "Circles on single pommel";
          VStr "End spindles (D value)";
          VStr "Dismount execution"]);
        ("stability", VStr "Challenging - limited support area")])]);
    ("support_configurations", VDict [
      ("between_pommels", VDict [
        ("position", VStr "Hands on both pommels");
        ("support_width", VStr "40-45cm adjustable spacing");
        ("stability", VStr "Maximum - widest base");
        ("typical_use", VStr "Learning foundation, stable circles");
        ("progression_stage", VStr "Beginner starting point")]);
      ("single_pommel", VDict [
        ("position", VStr "Both hands on one pommel");
        ("support_width", VStr "Minimal - pommel diameter only");
        ("stability", VStr "Advanced - requires precise balance");
        ("typical_use", VStr "High-value skills, FLOP sequences");
        ("visual_impact", VStr "Impressive control display")]);
      ("leather_only", VDict [
        ("position", VStr "Hands on apparatus surface (no pommels)");
        ("support_width", VStr "Variable hand placement");
        ("stability", VStr "Most challenging");
        ("typical_use", VStr "Advanced circles, travels");
        ("aesthetic", VStr "Pure, unassisted rotation")]);
      ("one_pommel_one_leather", VDict [
        ("position", VStr "Mixed support - one hand on pommel, one on leather");
        ("support_width", VStr "Asymmetric");
        ("stability", VStr "Moderate difficulty");
        ("typical_use", VStr "Transitions, travel elements");
        ("dynamic", VStr "Active hand repositioning")])]);
    ("trajectory_patterns", VDict [
      ("stationary_circle", VDict [
        ("description", VStr "Rotation without translation");
        ("path", VStr "Fixed circular plane");
        ("zone_usage", VStr "Single section maintained");
        ("visual", VStr "Pure rotational motion")]);
      ("longitudinal_travel", VDict [
        ("description", VStr "Movement along horse length");
        ("path", VStr "Linear translation with rotation");
        ("zone_usage", VStr "All three sections sequentially");
        ("examples", VList [
          VStr "Magyar (forward)";
          VStr "Sivado (backward)"]);
        ("visual", VStr "Lateral progression while rotating")]);
      ("transverse_circle", VDict [
        ("description", VStr "Rotation across horse width");
        ("path", VStr "Perpendicular to length axis");
        ("zone_usage", VStr "Width of saddle or end");
        ("visual", VStr "Side-to-side rotation")]);
      ("diagonal_path", VDict [
        ("description", VStr "Angled trajectory across apparatus");
        ("path", VStr "Oblique to length axis");
        ("zone_usage", VStr "Multiple sections at angles");
        ("visual", VStr "Complex spatial geometry")])]);
    ("spatial_requirements", VDict [
      ("zone_coverage", VDict [
        ("rule", VStr "Must use all three sections of horse");
        ("deduction", VStr "Applied if sections unused");
        ("strategic", VStr "Plan routine for complete coverage");
        ("visual_impact", VStr "Full apparatus utilization")]);
      ("pommel_spacing", VDict [
        ("regulation", VStr "40-45cm adjustable");
        ("optimization", VStr "Match to gymnast shoulder width");
        ("beginner_preference", VStr "Closer spacing for stability");
        ("advanced_preference", VStr "Wider for increased difficulty")]);
      ("body_clearance", VDict [
        ("requirement", VStr "No apparatus contact with body/legs");
        ("deduction_types", VList [
          VStr "Brushing (light contact)";
          VStr "Hitting (solid contact)"]);
        ("form_emphasis", VStr "Hip height maintenance");
        ("spatial_control", VStr "Precise body positioning")])]);
    ("dimensional_analysis", VDict [
      ("vertical_plane", VDict [
        ("hip_height", VDict [
          ("optimal", VStr "Maximum elevation above apparatus");
          ("effect", VStr "Easier skill execution, better form");
          ("technique", VStr "Fast loop execution raises body");
          ("visual", VStr "'Floating' appearance")]);
        ("shoulder_position", VDict [
          ("requirement", VStr "Erect shoulders");
          ("effect", VStr "Body alignment, control");
          ("visual", VStr "Extended, tall posture")]);
        ("leg_amplitude", VDict [
          ("scissors", VStr "Above shoulder height required");
          ("circles", VStr "Extended horizontal");
          ("flairs", VStr "Wide straddle elevation");
          ("deduction", VStr "Lack of amplitude")])]);
      ("horizontal_plane", VDict [
        ("body_extension", VDict [
          ("requirement", VStr "Straight body throughout");
          ("critical_points", VStr "Quarter and three-quarter positions");
          ("form", VStr "No pike or excessive arch");
          ("muscle_engagement", VStr "Full body tension, especially glutes")]);
        ("rotational_radius", VDict [
          ("leg_position", VStr "Determines circle diameter");
          ("together", VStr "Tighter circles, faster tempo");
          ("straddled", VStr "Wider circles (flairs), more power");
          ("visual", VStr "Geometric precision")])]);
      ("sagittal_plane", VDict [
        ("front_back_orientation", VDict [
          ("front_support", VStr "Body facing forward");
          ("back_support", VStr "Body facing backward");
          ("side_support", VStr "Body lateral to horse");
          ("transitions", VStr "Smooth orientation changes")])])])].

Definition APPARATUS_SPECS : dict :=
  [
    ("dimensions", VDict [
      ("length", VStr "160 cm (63 inches)");
      ("width", VStr "34-36 cm (13.4-14.2 inches)");
      ("height", VStr "115 cm (45.3 inches) from floor");
      ("pommel_height", VStr "12 cm (4.7 inches) above surface");
      ("pommel_spacing", VStr "40-45 cm (15.75-17.72 inches) adjustable")]);
    ("construction", VDict [
      ("body", VStr "Metal frame with foam rubber");
      ("cover", VStr "Synthetic leather (modern) or natural leather");
      ("pommels", VStr "Plastic handles (modern)");
      ("surface", VStr "Firm but slightly cushioned")]);
    ("safety", VDict [
      ("mat_thickness", VStr "10 cm surrounding");
      ("mat_function", VStr "Landing safety only (not apparatus forgiveness)")])].

(** [SPATIAL_ZONES[k]] and [SPATIAL_ZONES[k].get(name, {})]: [None] stands for
    the [KeyError] / [AttributeError] a missing or non-dict entry would raise. *)
Definition subtable (table : dict) (k : string) : option dict :=
  v ← dict_get table k; as_dict v.

Definition get_support_config (config_name : string) : option pyval :=
  configs ← subtable SPATIAL_ZONES "support_configurations";
  Some (default (VDict []) (dict_get configs config_name)).

Definition get_trajectory_pattern (pattern_name : string) : option pyval :=
  patterns ← subtable SPATIAL_ZONES "trajectory_patterns";
  Some (default (VDict []) (dict_get patterns pattern_name)).

(** Result of [analyze_spatial_coverage]. *)
Record coverage : Type := Coverage {
  zones_covered : list atom;
  all_sections_used : bool;
  coverage_complete : bool
}.

(** The loop of [analyze_spatial_coverage]: one [zones_used.add] per element
    that has a ["zone"] key. *)
Definition add_zone (zones_used : gset atom) (element : gmap string atom) : gset atom :=
  match element !! "zone" with
  | Some z => zones_used ∪ {[ z ]}
  | None => zones_used
  end.

Definition zones_used (elements : list (gmap string atom)) : gset atom :=
  foldl add_zone ∅ elements.

Definition analyze_spatial_coverage (elements : list (gmap string atom)) : coverage :=
  let zones_used := zones_used elements in
  {| zones_covered := base.elements zones_used;
     all_sections_used := bool_decide (3 ≤ size zones_used);
     coverage_complete :=
       bool_decide (AStr "end_left" ∈ zones_used)
       && bool_decide (AStr "saddle" ∈ zones_used)
       && bool_decide (AStr "end_right" ∈ zones_used) |}.

End spatial_zones.

(** ** Temporal qualities ([taxonomies/temporal_qualities.py]) *)

Module temporal_qualities.

Definition TEMPORAL_QUALITIES : dict :=
  [
    ("rhythm_patterns", VDict [
      ("metronomic", VDict [
        ("description", VStr "Even, clockwork-like tempo throughout");
        ("characteristic", VStr "Consistent beat, no acceleration/deceleration");
        ("origin", VStr "Years of muscle memory training");
        ("mental_state", VStr "Automatic execution, minimal conscious thought");
        ("aesthetic", VStr "Machine-like precision, hypnotic regularity");
        ("ideal_for", VStr "Circle work, basic sequences");
        ("risk", VStr "Overthinking disrupts rhythm")]);
      ("accelerating", VDict [
        ("description", VStr "Gradual tempo increase through sequence");
        ("characteristic", VStr "Building momentum and speed");
        ("purpose", VStr "Energy accumulation for difficult skills");
        ("aesthetic", VStr "Building intensity, crescendo effect");
        ("technical_use", VStr "Leading into dismounts or high-value elements")]);
      ("decelerating", VDict [
        ("description", VStr "Controlled tempo reduction");
        ("characteristic", VStr "Slowing while maintaining form");
        ("purpose", VStr "Precision control, setup for position changes");
        ("aesthetic", VStr "Deliberate control display");
        ("caution", VStr "Fatigue at routine end - maintain tempo")]);
      ("syncopated", VDict [
        ("description", VStr "Varied rhythm with intentional tempo shifts");
        ("characteristic", VStr "Speed variations between element types");
        ("complexity", VStr "Advanced timing control");
        ("aesthetic", VStr "Dynamic, musical quality");
        ("example", VStr "Fast circles, slower scissors, fast travels")])]);
    ("continuity", VDict [
      ("unbroken_flow", VDict [
        ("requirement", VStr "No pauses or stops during routine");
        ("regulation", VStr "Pausing results in deduction");
        ("aesthetic_ideal", VStr "Seamless motion from mount to dismount");
        ("challenge", VStr "Maintaining flow during transitions");
        ("visual", VStr "Liquid, continuous movement")]);
      ("transition_quality", VDict [
        ("smooth", VDict [
          ("description", VStr "Imperceptible element changes");
          ("technique", VStr "Perfect timing of hand/body repositioning");
          ("aesthetic", VStr "Effortless appearance");
          ("execution", VStr "No tempo disruption")]);
        ("punctuated", VDict [
          ("description", VStr "Distinct element boundaries");
          ("technique", VStr "Clear skill separation without pausing");
          ("aesthetic", VStr "Articulated, phrase-like");
          ("execution", VStr "Rhythm maintained across boundaries")])]);
      ("momentum_management", VDict [
        ("preservation", VStr "Carry energy through sequence");
        ("generation", VStr "Build momentum from mount or scissors");
        ("transfer", VStr "Channel energy into next element");
        ("loss_points", VList [
          VStr "Poor hand switches";
          VStr "Body position breaks";
          VStr "Amplitude reduction"])])]);
    ("phase_timing", VDict [
      ("critical_phases", VDict [
        ("quarter_position", VDict [
          ("timing", VStr "25% through circle");
          ("action", VStr "Push initiation on apparatus");
          ("function", VStr "Direction generation for circle");
          ("technique", VStr "Emphasis on pushing horse");
          ("effect", VStr "Determines circle quality for remainder");
          ("visual", VStr "First major body position")]);
        ("half_position", VDict [
          ("timing", VStr "50% through circle");
          ("body_orientation", VStr "Peak of rotation");
          ("function", VStr "Maximum extension point");
          ("technique", VStr "Maintain body line");
          ("visual", VStr "Profile view, full extension")]);
        ("three_quarter_position", VDict [
          ("timing", VStr "75% through circle");
          ("action", VStr "Hand switch execution");
          ("function", VStr "Continuity generation for completion");
          ("technique", VStr "Push for momentum, precise hand placement");
          ("critical", VStr "Most important phase for flow");
          ("visual", VStr "Transition moment")]);
        ("completion_position", VDict [
          ("timing", VStr "100% - return to start");
          ("function", VStr "Setup for next circle or element");
          ("seamless", VStr "No visible endpoint");
          ("visual", VStr "Return to front support")])]);
      ("swing_phases", VDict [
        ("upswing", VDict [
          ("description", VStr "Leg rise portion of pendulum");
          ("energy", VStr "Acceleration phase");
          ("form", VStr "Maximum extension and height");
          ("scissors", VStr "Above shoulder height required")]);
        ("peak", VDict [
          ("description", VStr "Highest point of swing arc");
          ("moment", VStr "Momentary suspension");
          ("transition", VStr "Direction change preparation");
          ("visual", VStr "Maximum amplitude display")]);
        ("downswing", VDict [
          ("description", VStr "Leg descent portion");
          ("energy", VStr "Momentum building for next phase");
          ("control", VStr "Controlled descent, not collapse");
          ("setup", VStr "Position for next element")])])]);
    ("tempo_characteristics", VDict [
      ("velocity", VDict [
        ("fast", VDict [
          ("effect", VStr "Higher body elevation");
          ("benefit", VStr "Easier skill execution");
          ("appearance", VStr "Dynamic, energetic");
          ("suitable_for", VStr "Circles, flairs, travels");
          ("risk", VStr "Control loss if too fast")]);
        ("moderate", VDict [
          ("effect", VStr "Balanced control and amplitude");
          ("benefit", VStr "Precision maintenance");
          ("appearance", VStr "Controlled, composed");
          ("suitable_for", VStr "Most element types");
          ("ideal", VStr "Base tempo for routines")]);
        ("controlled", VDict [
          ("effect", VStr "Maximum precision");
          ("benefit", VStr "Form perfection");
          ("appearance", VStr "Deliberate, powerful");
          ("suitable_for", VStr "Handstands, specific positions");
          ("risk", VStr "Momentum loss if too slow")])]);
      ("consistency", VDict [
        ("even_throughout", VDict [
          ("description", VStr "Constant tempo across entire routine");
          ("difficulty", VStr "Requires exceptional conditioning");
          ("aesthetic", VStr "Machine-like precision");
          ("score_benefit", VStr "Minimal tempo deductions")]);
        ("tempo_zones", VDict [
          ("description", VStr "Different speeds for different element groups");
          ("strategy", VStr "Match tempo to element requirements");
          ("complexity", VStr "Advanced control");
          ("aesthetic", VStr "Dynamic range, musical phrasing")])])]);
    ("endurance_dynamics", VDict [
      ("fatigue_patterns", VDict [
        ("routine_beginning", VDict [
          ("energy", VStr "Peak freshness");
          ("execution", VStr "Sharpest form");
          ("strategy", VStr "Technical elements early")]);
        ("routine_middle", VDict [
          ("energy", VStr "Sustained work");
          ("challenge", VStr "Maintain consistency");
          ("risk", VStr "Form degradation begins")]);
        ("routine_end", VDict [
          ("energy", VStr "Maximum fatigue");
          ("critical", VStr "Most common error zone");
          ("warning", VStr "Don't relax before dismount");
          ("strategy", VStr "Focus through completion")])]);
      ("conditioning_requirements", VDict [
        ("muscular_endurance", VStr "Continuous motion without breaks");
        ("cardiovascular", VStr "Elevated heart rate throughout");
        ("mental_endurance", VStr "Concentration from mount to dismount");
        ("preparation", VStr "Routine practice for duration tolerance")])]);
    ("temporal_aesthetics", VDict [
      ("flow_quality", VDict [
        ("liquid", VStr "Seamless, water-like continuity");
        ("mechanical", VStr "Precise, clockwork regularity");
        ("dynamic", VStr "Energy variations, peaks and valleys");
        ("sustained", VStr "Unrelenting consistency")]);
      ("phrasing", VDict [
        ("element_phrases", VStr "Groups of related skills as units");
        ("breath_rhythm", VStr "Gymnast breathing patterns");
        ("musical_analogy", VStr "Measures, phrases, movements");
        ("compositional", VStr "Intentional temporal structure")]);
      ("climax_placement", VDict [
        ("early_climax", VStr "High difficulty at start");
        ("mid_climax", VStr "Peak skills in middle");
        ("late_climax", VStr "Building to dismount");
        ("multiple_climaxes", VStr "Several high-value moments")])])].

Definition TIMING_METRICS : dict :=
  [
    ("routine_duration", VDict [
      ("typical_range", VStr "30-60 seconds");
      ("regulation", VStr "No specific time requirement");
      ("influenced_by", VList [
        VStr "Skill difficulty";
        VStr "Number of elements";
        VStr "Tempo chosen";
        VStr "Gymnast style"])]);
    ("element_duration", VDict [
      ("single_circle", VStr "1-2 seconds typical");
      ("scissor", VStr "2-3 seconds");
      ("travel", VStr "3-5 seconds");
      ("dismount", VStr "1-2 seconds")])].

(** [TEMPORAL_QUALITIES[k]]: [None] stands for the exception a missing or
    non-dict entry would raise. *)
Definition section_of (table : dict) (k : string) : option dict :=
  v ← dict_get table k; as_dict v.

Definition get_rhythm_pattern (pattern_name : string) : option pyval :=
  patterns ← section_of TEMPORAL_QUALITIES "rhythm_patterns";
  Some (default (VDict []) (dict_get patterns pattern_name)).

Definition get_critical_phase (phase_name : string) : option pyval :=
  timing ← section_of TEMPORAL_QUALITIES "phase_timing";
  phases ← section_of timing "critical_phases";
  Some (default (VDict []) (dict_get phases phase_name)).

(** Result of [analyze_tempo_strategy]. *)
Record tempo_strategy : Type := TempoStrategy {
  continuity_maintained : bool;
  rhythm_pattern : string;
  fatigue_risk_zones : list string;
  temporal_aesthetic : list string
}.

(** The three assignments the function makes to its [analysis] dict. *)
Definition set_continuity_maintained (b : bool) (a : tempo_strategy) : tempo_strategy :=
  {| continuity_maintained := b;
     rhythm_pattern := rhythm_pattern a;
     fatigue_risk_zones := fatigue_risk_zones a;
     temporal_aesthetic := temporal_aesthetic a |}.

Definition set_rhythm_pattern (p : string) (a : tempo_strategy) : tempo_strategy :=
  {| continuity_maintained := continuity_maintained a;
     rhythm_pattern := p;
     fatigue_risk_zones := fatigue_risk_zones a;
     temporal_aesthetic := temporal_aesthetic a |}.

Definition append_fatigue_risk_zone (z : string) (a : tempo_strategy) : tempo_strategy :=
  {| continuity_maintained := continuity_maintained a;
     rhythm_pattern := rhythm_pattern a;
     fatigue_risk_zones := fatigue_risk_zones a ++ [z];
     temporal_aesthetic := temporal_aesthetic a |}.

(** [set(tempos)] for [tempos = [el.get("tempo", "moderate") for el in ...]]. *)
Definition tempo_set (routine_structure : list (gmap string atom)) : gset atom :=
  list_to_set (map (fun el => get el "tempo" (AStr "moderate")) routine_structure).

(** [any(el.get("pause", False) for el in routine_structure)]. *)
Definition any_pause (routine_structure : list (gmap string atom)) : bool :=
  existsb (fun el => truthy (get el "pause" (ABool false))) routine_structure.

Definition analyze_tempo_strategy (routine_structure : list (gmap string atom))
  : tempo_strategy :=
  let analysis :=
    {| continuity_maintained := true;
       rhythm_pattern := "unknown";
       fatigue_risk_zones := [];
       temporal_aesthetic := [] |} in
  (* Check for pauses (continuity breaks) *)
  let analysis :=
    if any_pause routine_structure
    then set_continuity_maintained false analysis
    else analysis in
  (* Analyze tempo consistency *)
  let analysis :=
    if bool_decide (size (tempo_set routine_structure) = 1)
    then set_rhythm_pattern "metronomic" analysis
    else set_rhythm_pattern "syncopated" analysis in
  (* Identify fatigue zones *)
  let analysis :=
    if bool_decide (8 < length routine_structure)
    then append_fatigue_risk_zone "routine_end" analysis
    else analysis in
  analysis.

End temporal_qualities.

(** ** Form assessment ([taxonomies/form_assessment.py]) *)

Module form_assessment.

(** A Python number: [max(0, quality_score)] is the [int] 0 or the [float]
    score. *)
Inductive pynum : Type :=
  | NumInt (z : Z)
  | NumFloat (f : float).

(** [max(0, x)] for a float [x]: the builtin keeps its first argument unless
    the second is strictly greater. *)
Definition max_0 (x : float) : pynum :=
  if (0 <? x)%float then NumFloat x else NumInt 0.

(** Result of [assess_form_quality]. *)
Record form_quality : Type := FormQuality {
  quality_score : pynum;
  deductions : list string;
  form_assessment : string
}.

(** [deductions.append(name); quality_score -= penalty] on the pair of
    locals [(deductions, quality_score)]. *)
Definition deduct (name : string) (penalty : float) (st : list string * float)
  : list string * float :=
  (st.1 ++ [name], (st.2 - penalty)%float).

#[warnings="-inexact-float"] Definition assess_form_quality (element_execution : gmap string atom) : form_quality :=
  let st : list string * float := ([], 10.0%float) in
  (* Check body extension *)
  let st :=
    if negb (truthy (get element_execution "body_extended" (ABool true)))
    then deduct "lack_of_extension" 0.3 st else st in
  (* Check leg form *)
  let st :=
    if negb (truthy (get element_execution "legs_straight" (ABool true)))
    then deduct "bent_knees" 0.3 st else st in
  let st :=
    if negb (truthy (get element_execution "toes_pointed" (ABool true)))
    then deduct "flexed_feet" 0.1 st else st in
  (* Check amplitude *)
  let st :=
    if bool_decide (element_execution !! "element_type" = Some (AStr "scissor"))
    then
      if negb (truthy (get element_execution "above_shoulder" (ABool true)))
      then deduct "lack_of_amplitude" 0.3 st else st
    else st in
  (* Check apparatus contact *)
  let st :=
    if truthy (get element_execution "brushing" (ABool false))
    then deduct "brushing" 0.1 st else st in
  let st :=
    if truthy (get element_execution "hitting" (ABool false))
    then deduct "hitting" 0.3 st else st in
  {| quality_score := max_0 st.2;
     deductions := st.1;
     form_assessment :=
       match st.1 with [] => "clean" | _ => "errors_present" end |}.


Definition EXECUTION_DEDUCTIONS : dict :=
  [
    ("form_breaks", VDict [
      ("bent_knees", VStr "Throughout routine");
      ("flexed_feet", VStr "Lack of toe pointing");
      ("bent_arms", VStr "During support phases");
      ("pike_body", VStr "Hip angle break");
      ("arched_body", VStr "Excessive spinal extension")]);
    ("technical_errors", VDict [
      ("lack_of_extension", VStr "Circles and flairs not fully extended");
      ("hip_breaks", VStr "Hip angle collapse in circles/flairs");
      ("lack_of_amplitude", VStr "Scissors/swings below shoulder height");
      ("insufficient_separation", VStr "Scissor legs not wide enough");
      ("show_of_strength", VStr "Visible muscle strain in handstands");
      ("pausing", VStr "Any stop during routine");
      ("lowering", VStr "Descent from handstand position")]);
    ("apparatus_violations", VDict [
      ("brushing", VStr "Light contact with apparatus");
      ("hitting", VStr "Solid contact with apparatus");
      ("missing_zones", VStr "Not using all three sections");
      ("hand_slip", VStr "Loss of pommel grip (major error)")]);
    ("rhythm_errors", VDict [
      ("tempo_break", VStr "Inconsistent speed");
      ("pause", VStr "Complete stop in motion");
      ("rushed_element", VStr "Excessive speed loss of control");
      ("sluggish_element", VStr "Loss of momentum")])].

(** [get_deduction_category]: the first category, in table order, that has
    [error_type] among its keys or among its values; "unknown" when there is
    none. [None] would be a category that is not a dict. *)
Fixpoint get_deduction_category_in (categories : dict) (error_type : string)
  : option string :=
  match categories with
  | [] => Some "unknown"
  | (category, errors) :: rest =>
      errors ← as_dict errors;
      if dict_mem errors error_type
         || existsb (fun v => pyval_eq_str (Some v) error_type) (map snd errors)
      then Some category
      else get_deduction_category_in rest error_type
  end.

Definition get_deduction_category (error_type : string) : option string :=
  get_deduction_category_in EXECUTION_DEDUCTIONS error_type.

End form_assessment.

(** ** The tool functions ([server.py]) *)

Module server.

Import spatial_zones temporal_qualities.

(** Truthiness of an [Optional[str]] argument: [None] and the empty string
    both skip the block guarded by [if arg:]. *)
Definition requested (arg : option string) : option string :=
  match arg with
  | Some s => if String.eqb s "" then None else Some s
  | None => None
  end.

(** [analyze_spatial_composition]. The result dict is built by successive
    item assignments; [None] would be an exception raised by a table
    subscript. *)
Definition analyze_spatial_composition
    (zone_focus support_configuration trajectory_type : option string)
  : option (gmap string pyval) :=
  let result : gmap string pyval :=
    <["apparatus_specs" := VDict APPARATUS_SPECS]>
      (<["spatial_zones" := VDict SPATIAL_ZONES]> ∅) in
  result ←
    match requested zone_focus with
    | Some zone_focus =>
        sections ← subtable SPATIAL_ZONES "apparatus_sections";
        match dict_get sections zone_focus with
        | Some section => Some (<["focused_zone" := section]> result)
        | None =>
            Some (<["error" := VStr ("Zone '" +:+ zone_focus +:+ "' not found")]> result)
        end
    | None => Some result
    end;
  result ←
    match requested support_configuration with
    | Some support_configuration =>
        config ← get_support_config support_configuration;
        if pyval_truthy config
        then Some (<["support_details" := config]> result)
        else Some (<["error" :=
                     VStr ("Support config '" +:+ support_configuration +:+ "' not found")]>
                     result)
    | None => Some result
    end;
  result ←
    match requested trajectory_type with
    | Some trajectory_type =>
        trajectory ← get_trajectory_pattern trajectory_type;
        if pyval_truthy trajectory
        then Some (<["trajectory_details" := trajectory]> result)
        else Some (<["error" :=
                     VStr ("Trajectory '" +:+ trajectory_type +:+ "' not found")]>
                     result)
    | None => Some result
    end;
  Some result.

(** Result of [map_routine_structure]. The keys ["spatial_coverage"] and
    ["temporal_strategy"] exist only when the analysis was requested. *)
Record routine_analysis : Type := RoutineAnalysis {
  element_count : nat;
  element_groups_present : list string;
  difficulty_profile : gmap atom nat;
  structure_valid : bool;
  notes : list string;
  spatial_coverage : option coverage;
  temporal_strategy : option tempo_strategy;
  synthesis_ready : bool
}.

(** The [if] / [elif] chain mapping an element type to its element group. *)
Definition element_group_of (elem_type : atom) : option string :=
  if bool_decide (elem_type ∈ [AStr "circle"; AStr "flair"; AStr "russian"; AStr "spindle"])
  then Some "circles_flairs"
  else if bool_decide (elem_type ∈ [AStr "scissor"; AStr "single_leg"])
  then Some "scissors_single_leg"
  else if bool_decide (elem_type ∈ [AStr "magyar"; AStr "sivado"; AStr "travel"])
  then Some "travels"
  else if bool_decide (elem_type ∈ [AStr "dismount"])
  then Some "dismounts"
  else None.

(** One iteration of the loop over [element_sequence], on the pair
    [(analysis["element_groups_present"], analysis["difficulty_profile"])]. *)
Definition scan_element (st : gset string * gmap atom nat) (element : gmap string atom)
  : gset string * gmap atom nat :=
  let elem_type := get element "element_type" (AStr "unknown") in
  (* Map to element group *)
  let groups :=
    match element_group_of elem_type with
    | Some g => st.1 ∪ {[ g ]}
    | None => st.1
    end in
  (* Track difficulty *)
  let diff := get element "difficulty_value" (AStr "A") in
  (groups, <[diff := default 0 (st.2 !! diff) + 1]> st.2).

Definition scan (element_sequence : list (gmap string atom))
  : gset string * gmap atom nat :=
  foldl scan_element (∅, ∅) element_sequence.

(** [analysis["structure_valid"] = False; analysis["notes"].append(note)]. *)
Definition invalidate (note : string) (st : bool * list string) : bool * list string :=
  (false, st.2 ++ [note]).

Definition map_routine_structure
    (element_sequence : list (gmap string atom))
    (include_spatial include_temporal : bool)
  : routine_analysis :=
  (* Analyze element distribution *)
  let loop := scan element_sequence in
  let element_groups_present := elements loop.1 in
  let st : bool * list string := (true, []) in
  (* Check element group requirement (need 4 groups + dismount) *)
  let st :=
    if bool_decide (length element_groups_present < 4)
    then invalidate "Insufficient element group variety - need 4 groups" st
    else st in
  (* Spatial analysis *)
  let spatial_coverage :=
    if include_spatial
    then Some (analyze_spatial_coverage element_sequence)
    else None in
  let st :=
    match spatial_coverage with
    | Some c =>
        if negb (coverage_complete c)
        then invalidate "Incomplete zone coverage - must use all 3 sections" st
        else st
    | None => st
    end in
  (* Temporal analysis *)
  let temporal_strategy :=
    if include_temporal
    then Some (analyze_tempo_strategy element_sequence)
    else None in
  let st :=
    match temporal_strategy with
    | Some t =>
        if negb (continuity_maintained t)
        then invalidate "Routine has pauses - continuity required" st
        else st
    | None => st
    end in
  (* Ready for synthesis *)
  {| element_count := length element_sequence;
     element_groups_present := element_groups_present;
     difficulty_profile := loop.2;
     structure_valid := st.1;
     notes := st.2;
     spatial_coverage := spatial_coverage;
     temporal_strategy := temporal_strategy;
     synthesis_ready := st.1 |}.


Import element_groups form_assessment.

(** The summary of one group: four fields copied with [.get], [None] when
    absent, and the number of its movements. *)
Record group_summary : Type := GroupSummary {
  summary_id : pyval;
  summary_name : pyval;
  summary_description : pyval;
  summary_visual_signature : pyval;
  movement_count : nat
}.

(** What [get_element_vocabulary] returns: a dict of strings, lists and
    dicts, or the summary of one group, which also holds an [int]. *)
Inductive vocabulary : Type :=
  | Vocabulary (v : pyval)
  | VocabularySummary (s : group_summary).

(** [group.get(k)]. *)
Definition field (group : dict) (k : string) : pyval :=
  default VNone (dict_get group k).

(** [get_element_vocabulary]; [None] would be an exception raised by
    [.get] or [len] on a value of the wrong kind. *)
Definition get_element_vocabulary (element_group : option string) (detail_level : string)
  : option vocabulary :=
  match requested element_group with
  | Some element_group =>
      match get_element_group element_group with
      | Some group_data =>
          if negb (pyval_truthy group_data)
          then Some (Vocabulary (VDict
                 [("error", VStr ("Element group '" +:+ element_group +:+ "' not found"))]))
          else if String.eqb detail_level "summary"
          then
            d ← as_dict group_data;
            n ← py_len (default (VDict []) (dict_get d "movements"));
            Some (VocabularySummary
                    {| summary_id := field d "id";
                       summary_name := field d "name";
                       summary_description := field d "description";
                       summary_visual_signature := field d "visual_signature";
                       movement_count := n |})
          else Some (Vocabulary group_data)
      | None =>
          Some (Vocabulary (VDict
            [("error", VStr ("Element group '" +:+ element_group +:+ "' not found"))]))
      end
  | None =>
      (* Return all groups *)
      let all_groups := get_all_element_groups in
      if String.eqb detail_level "summary"
      then
        summaries ←
          mapM (fun entry : string * pyval =>
                  group ← as_dict entry.2;
                  Some (entry.1,
                        VDict [("id", field group "id");
                               ("name", field group "name");
                               ("description", field group "description")]))
               all_groups;
        Some (Vocabulary (VDict summaries))
      else Some (Vocabulary (VDict all_groups))
  end.

(** [get_temporal_framework], built like [analyze_spatial_composition]. *)
Definition get_temporal_framework (rhythm_type phase_focus : option string)
  : option (gmap string pyval) :=
  let result : gmap string pyval :=
    <["timing_metrics" := VDict TIMING_METRICS]>
      (<["temporal_qualities" := VDict TEMPORAL_QUALITIES]> ∅) in
  result ←
    match requested rhythm_type with
    | Some rhythm_type =>
        rhythm ← get_rhythm_pattern rhythm_type;
        if pyval_truthy rhythm
        then Some (<["rhythm_details" := rhythm]> result)
        else Some (<["error" :=
                     VStr ("Rhythm type '" +:+ rhythm_type +:+ "' not found")]> result)
    | None => Some result
    end;
  result ←
    match requested phase_focus with
    | Some phase_focus =>
        phase ← get_critical_phase phase_focus;
        if pyval_truthy phase
        then Some (<["phase_details" := phase]> result)
        else Some (<["error" :=
                     VStr ("Phase '" +:+ phase_focus +:+ "' not found")]> result)
    | None => Some result
    end;
  Some result.

(** The dict comprehension of [assess_execution_form]: each deduction of the
    assessment under its category. A later duplicate key would overwrite an
    earlier one. *)
Definition deduction_categories (assessment : form_quality)
  : option (gmap string string) :=
  foldl (fun acc deduction =>
           m ← acc;
           category ← get_deduction_category deduction;
           Some (<[deduction := category]> m))
        (Some ∅) (deductions assessment).

End server.

(** ** Vocabulary of the specification

    The names the specification uses for inputs and outcomes, defined over
    the embedding above. *)

Import element_groups spatial_zones temporal_qualities form_assessment server.

(** *** Element groups *)

Definition group_short_ids : list string :=
  ["EG_I"; "EG_II"; "EG_III"; "EG_IV"; "EG_V"].

Definition group_semantic_names : list string :=
  ["scissors_single_leg"; "circles_flairs"; "travels"; "spindles_handstands"; "dismounts"].

Definition valid_group_identifiers : list string :=
  group_short_ids ++ group_semantic_names.

(** [group.get("id")] of a returned record. *)
Definition group_id_field (group : pyval) : option pyval :=
  d ← as_dict group; dict_get d "id".

(** *** Spatial coverage *)

Definition canonical_zones : gset atom :=
  {[ AStr "end_left"; AStr "saddle"; AStr "end_right" ]}.

(** The distinct zone values present; an element without a ["zone"] key
    contributes nothing. *)
Definition zones_present (elements : list (gmap string atom)) : gset atom :=
  list_to_set (omap (fun el => el !! "zone") elements).

Definition with_zone (z : string) : gmap string atom := {[ "zone" := AStr z ]}.

(** *** Tempo and continuity *)

Definition tempo_label (el : gmap string atom) : atom :=
  get el "tempo" (AStr "moderate").

Definition paused (el : gmap string atom) : bool :=
  truthy (get el "pause" (ABool false)).

Definition with_tempo (t : string) : gmap string atom := {[ "tempo" := AStr t ]}.

(** *** Form rules: the table of the form-quality validator *)

Record form_rule : Type := FormRule {
  rule_fires : gmap string atom → bool;
  rule_deduction : string;
  rule_penalty : float
}.

(** A flag that defaults to true "is false"; one that defaults to false
    "is true". Both read the flag by its truthiness, as [not x] and [if x]
    do. *)
Definition flag_is_false (k : string) (e : gmap string atom) : bool :=
  negb (truthy (get e k (ABool true))).

Definition flag_is_true (k : string) (e : gmap string atom) : bool :=
  truthy (get e k (ABool false)).

Definition is_scissor (e : gmap string atom) : bool :=
  bool_decide (e !! "element_type" = Some (AStr "scissor")).

#[warnings="-inexact-float"] Definition form_rules : list form_rule :=
  [ FormRule (flag_is_false "body_extended") "lack_of_extension" 0.3;
    FormRule (flag_is_false "legs_straight") "bent_knees" 0.3;
    FormRule (flag_is_false "toes_pointed") "flexed_feet" 0.1;
    FormRule (fun e => is_scissor e && flag_is_false "above_shoulder" e)
             "lack_of_amplitude" 0.3;
    FormRule (flag_is_true "brushing") "brushing" 0.1;
    FormRule (flag_is_true "hitting") "hitting" 0.3 ].

(** The rules an execution record triggers, in table order. *)
Definition fired (e : gmap string atom) : list form_rule :=
  List.filter (fun r => rule_fires r e) form_rules.

(** Penalties leave the score one at a time, each by a binary64
    subtraction. *)
Definition subtract_all (start : float) (penalties : list float) : float :=
  foldl PrimFloat.sub start penalties.

(** [{body_extended: false, legs_straight: true, toes_pointed: true,
    hitting: true}]. *)
Definition example_execution : gmap string atom :=
  list_to_map [("body_extended", ABool false); ("legs_straight", ABool true);
               ("toes_pointed", ABool true); ("hitting", ABool true)].

(** A scissor that breaks every rule of the table. *)
Definition all_violated : gmap string atom :=
  list_to_map [("element_type", AStr "scissor"); ("body_extended", ABool false);
               ("legs_straight", ABool false); ("toes_pointed", ABool false);
               ("above_shoulder", ABool false); ("brushing", ABool true);
               ("hitting", ABool true)].

(** *** Spatial composition *)

Definition apparatus_sections : dict :=
  default [] (subtable SPATIAL_ZONES "apparatus_sections").

Definition support_configurations : dict :=
  default [] (subtable SPATIAL_ZONES "support_configurations").

Definition trajectory_patterns : dict :=
  default [] (subtable SPATIAL_ZONES "trajectory_patterns").

Definition zone_error (k : string) : pyval :=
  VStr ("Zone '" +:+ k +:+ "' not found").

Definition support_error (k : string) : pyval :=
  VStr ("Support config '" +:+ k +:+ "' not found").

Definition trajectory_error (k : string) : pyval :=
  VStr ("Trajectory '" +:+ k +:+ "' not found").

(** The focused sub-entry of a requested key, when the table has it. *)
Definition found_in (table : dict) (arg : option string) : option pyval :=
  k ← requested arg; dict_get table k.

(** The requested key itself, when the table does not have it. *)
Definition unknown_in (table : dict) (arg : option string) : option string :=
  k ← requested arg;
  match dict_get table k with Some _ => None | None => Some k end.

(** The not-found messages a call owes, one per unknown requested key, in
    the order the function checks them. *)
Definition owed_errors (zone_focus support_configuration trajectory_type : option string)
  : list pyval :=
  option_list (zone_error <$> unknown_in apparatus_sections zone_focus)
  ++ option_list (support_error <$> unknown_in support_configurations support_configuration)
  ++ option_list (trajectory_error <$> unknown_in trajectory_patterns trajectory_type).

(** A response carries a value when some field holds it. *)
Definition carries (r : gmap string pyval) (v : pyval) : Prop :=
  ∃ k, r !! k = Some v.

(** A not-found message of the operation, for some key. *)
Definition is_not_found_message (v : pyval) : Prop :=
  ∃ k, v = zone_error k ∨ v = support_error k ∨ v = trajectory_error k.

(** The fields a response can have. *)
Definition response_fields : gset string :=
  {[ "spatial_zones"; "apparatus_specs"; "focused_zone";
     "support_details"; "trajectory_details"; "error" ]}.

(** *** Routine structure *)

Definition group_of_element (el : gmap string atom) : option string :=
  element_group_of (get el "element_type" (AStr "unknown")).

(** The distinct element groups a routine touches. *)
Definition groups_present (element_sequence : list (gmap string atom)) : gset string :=
  list_to_set (omap group_of_element element_sequence).

Definition reachable_groups : gset string :=
  {[ "circles_flairs"; "scissors_single_leg"; "travels"; "dismounts" ]}.

(** The keyword-to-group mapping of the routine structure mapper, as the
    specification lists it. *)
Definition keyword_groups : list (string * string) :=
  [("circle", "circles_flairs"); ("flair", "circles_flairs");
   ("russian", "circles_flairs"); ("spindle", "circles_flairs");
   ("scissor", "scissors_single_leg"); ("single_leg", "scissors_single_leg");
   ("magyar", "travels"); ("sivado", "travels"); ("travel", "travels");
   ("dismount", "dismounts")].

(** An element is of a group when its element type is a keyword of the
    group. *)
Definition in_group (el : gmap string atom) (g : string) : Prop :=
  ∃ kw, el !! "element_type" = Some (AStr kw) ∧ (kw, g) ∈ keyword_groups.

(** The groups of an element, read off the keyword table. *)
Definition keyword_groups_of (el : gmap string atom) : list string :=
  omap (fun p : string * string =>
          if decide (el !! "element_type" = Some (AStr p.1)) then Some p.2 else None)
       keyword_groups.

(** The distinct element groups of a routine, by the keyword table. *)
Definition distinct_groups (seq : list (gmap string atom)) : gset string :=
  list_to_set (seq ≫= keyword_groups_of).

Definition note_variety : string :=
  "Insufficient element group variety - need 4 groups".

Definition note_coverage : string :=
  "Incomplete zone coverage - must use all 3 sections".

Definition note_continuity : string :=
  "Routine has pauses - continuity required".

(** A routine element given by its type and zone. *)
Definition routine_element (type zone : string) : gmap string atom :=
  list_to_map [("element_type", AStr type); ("zone", AStr zone)].

(** A routine with all four reachable groups, all three sections, no pause. *)
Definition full_routine : list (gmap string atom) :=
  [ routine_element "scissor" "saddle";
    routine_element "circle" "end_left";
    routine_element "travel" "end_right";
    routine_element "dismount" "end_right" ].

(** ** Vocabulary for the remaining functions *)

(** *** Element vocabulary *)

(** The two identifiers of the dismounts group, whose record has ["types"]
    where the other groups have ["movements"]. *)
Definition dismount_identifiers : list string := ["EG_V"; "dismounts"].

Definition not_found_message (element_group : string) : pyval :=
  VDict [("error", VStr ("Element group '" +:+ element_group +:+ "' not found"))].

(** The keys of a dict value, in order. *)
Definition keys_of (v : pyval) : list string :=
  match v with VDict d => map fst d | _ => [] end.

(** *** Deduction categories *)

(** The strings a category answers to: the names (keys) and the
    descriptions (values) of its deductions. *)
Definition category_strings (errors : pyval) : list string :=
  match errors with
  | VDict d =>
      map fst d ++ omap (fun e => match e.2 with VStr s => Some s | _ => None end) d
  | _ => []
  end.

Definition catalogue_strings (categories : dict) : list string :=
  concat (map (fun c => category_strings c.2) categories).

Definition deduction_category_names : list string :=
  ["form_breaks"; "technical_errors"; "apparatus_violations"; "rhythm_errors"].

(** The deductions [assess_form_quality] can emit, each with its category. *)
Definition emitted_deduction_categories : list (string * string) :=
  [("lack_of_extension", "technical_errors"); ("bent_knees", "form_breaks");
   ("flexed_feet", "form_breaks"); ("lack_of_amplitude", "technical_errors");
   ("brushing", "apparatus_violations"); ("hitting", "apparatus_violations")].

(** [score == 10.0]. *)
Definition is_perfect (n : pynum) : bool :=
  match n with
  | NumFloat f => (f =? 10)%float
  | NumInt z => (z =? 10)%Z
  end.

(** *** Difficulty histogram *)

Definition difficulty (el : gmap string atom) : atom :=
  get el "difficulty_value" (AStr "A").

(** How many elements of the routine carry the difficulty [d]. *)
Definition occurrences (d : atom) (seq : list (gmap string atom)) : nat :=
  length (filter (fun el => difficulty el = d) seq).

(** The sum of the counts of a histogram. *)
Definition total_count (m : gmap atom nat) : nat :=
  map_fold (fun _ n acc => n + acc) 0 m.

(** *** Catalogue names and the temporal framework *)

Definition support_configuration_names : list string :=
  ["between_pommels"; "single_pommel"; "leather_only"; "one_pommel_one_leather"].

Definition trajectory_pattern_names : list string :=
  ["stationary_circle"; "longitudinal_travel"; "transverse_circle"; "diagonal_path"].

Definition rhythm_pattern_names : list string :=
  ["metronomic"; "accelerating"; "decelerating"; "syncopated"].

Definition critical_phase_names : list string :=
  ["quarter_position"; "half_position"; "three_quarter_position"; "completion_position"].

Definition rhythm_patterns : dict :=
  default [] (section_of TEMPORAL_QUALITIES "rhythm_patterns").

Definition critical_phases : dict :=
  default [] (timing ← section_of TEMPORAL_QUALITIES "phase_timing";
              section_of timing "critical_phases").

Definition rhythm_error (k : string) : pyval :=
  VStr ("Rhythm type '" +:+ k +:+ "' not found").

Definition phase_error (k : string) : pyval :=
  VStr ("Phase '" +:+ k +:+ "' not found").

(** The not-found messages a temporal query owes, in the order the function
    checks the keys. *)
Definition owed_temporal_errors (rhythm_type phase_focus : option string) : list pyval :=
  option_list (rhythm_error <$> unknown_in rhythm_patterns rhythm_type)
  ++ option_list (phase_error <$> unknown_in critical_phases phase_focus).

(** * Properties *)

(** ** Element group lookup *)

Section get_element_group_facts.

(** What a successful search returns: an entry of the table that the
    requested identifier matches, by id or by key. *)
Lemma get_element_group_in_Some groups group_id group :
  get_element_group_in groups group_id = Some group →
  ∃ key, (key, group) ∈ groups ∧
         (group_id_field group = Some (VStr group_id) ∨ key = group_id).
Proof.
  induction groups as [|[key g] rest IH]; simpl; [done|].
  destruct (pyval_eq_str _ _ || _) eqn:Hm.
  - intros [= ->]. exists key. split; [left|].
    apply orb_true_iff in Hm as [Hm|Hm].
    + left. unfold group_id_field. unfold pyval_eq_str in Hm.
      destruct (as_dict group ≫= _) as [[]|]; try done.
      by apply String.eqb_eq in Hm as ->.
    + right. by apply String.eqb_eq.
  - intros H. destruct (IH H) as (k & Hin & Hk). exists k. split; [by right|done].
Qed.

(** The keys and the ids of the table are the five semantic names and the
    five short ids, row by row. *)
Lemma element_group_keys : map fst ELEMENT_GROUPS = group_semantic_names.
Proof. reflexivity. Qed.

Lemma element_group_ids :
  map (fun e => group_id_field e.2) ELEMENT_GROUPS
  = map (fun s => Some (VStr s)) group_short_ids.
Proof. reflexivity. Qed.

Lemma valid_group_identifiers_NoDup : NoDup valid_group_identifiers.
Proof. apply (bool_decide_unpack _). vm_compute. exact I. Qed.

(** Both forms of an identifier reach the same row. *)
Lemma get_element_group_rows :
  Forall2 (fun s e => get_element_group s = Some e.2) group_short_ids ELEMENT_GROUPS
  ∧ Forall2 (fun s e => get_element_group s = Some e.2) group_semantic_names ELEMENT_GROUPS.
Proof. split; repeat constructor. Qed.

Lemma matching_is_valid group_id key group :
  (key, group) ∈ ELEMENT_GROUPS →
  group_id_field group = Some (VStr group_id) ∨ key = group_id →
  group_id ∈ valid_group_identifiers.
Proof.
  intros Hin Hm. unfold valid_group_identifiers. apply elem_of_app.
  destruct Hm as [Hid| <-].
  - left.
    assert (Some (VStr group_id) ∈ map (fun e => group_id_field e.2) ELEMENT_GROUPS) as H.
    { rewrite <- Hid. apply (list_elem_of_fmap_2 (fun e => group_id_field e.2) _ _ Hin). }
    rewrite element_group_ids in H.
    by apply list_elem_of_fmap in H as (s & [= ->] & Hs).
  - right. rewrite <- element_group_keys.
    apply (list_elem_of_fmap_2 fst _ _ Hin).
Qed.

(** C8: for each of the five short ids and the five semantic names,
    [get_element_group] returns a record of the table whose ["id"] or whose
    key is exactly the requested string; for every other string it returns
    the not-found value [None]. The function is total and pure: it never
    raises and has no effect. *)
Theorem get_element_group_spec (group_id : string) :
  (group_id ∈ valid_group_identifiers →
     ∃ key group,
       get_element_group group_id = Some group ∧
       (key, group) ∈ ELEMENT_GROUPS ∧
       (group_id_field group = Some (VStr group_id) ∨ key = group_id))
  ∧ (group_id ∉ valid_group_identifiers → get_element_group group_id = None).
Proof.
  split.
  - intros Hv.
    assert (is_Some (get_element_group group_id)) as [group Hg].
    { unfold valid_group_identifiers, group_short_ids, group_semantic_names in Hv.
      simpl in Hv. repeat (apply elem_of_cons in Hv as [->|Hv]; [by eexists|]).
      by apply elem_of_nil in Hv. }
    destruct (get_element_group_in_Some _ _ _ Hg) as (key & Hin & Hm).
    by exists key, group.
  - intros Hn. destruct (get_element_group group_id) as [group|] eqn:Hg; [|done].
    destruct (get_element_group_in_Some _ _ _ Hg) as (key & Hin & Hm).
    destruct Hn. by eapply matching_is_valid.
Qed.

(** The lookup at a short id, at a semantic name, and at two strings that
    differ from a valid identifier only by case or by a trailing space. *)
Lemma get_element_group_spec_witness :
  (∃ key group,
     get_element_group "EG_III" = Some group ∧
     (key, group) ∈ ELEMENT_GROUPS ∧
     (group_id_field group = Some (VStr "EG_III") ∨ key = "EG_III"))
  ∧ (∃ key group,
     get_element_group "dismounts" = Some group ∧
     (key, group) ∈ ELEMENT_GROUPS ∧
     (group_id_field group = Some (VStr "dismounts") ∨ key = "dismounts"))
  ∧ get_element_group "eg_iii" = None
  ∧ get_element_group "travels " = None.
Proof.
  split; [|split; [|split]].
  - apply (proj1 (get_element_group_spec "EG_III")).
    apply (bool_decide_unpack _). vm_compute. exact I.
  - apply (proj1 (get_element_group_spec "dismounts")).
    apply (bool_decide_unpack _). vm_compute. exact I.
  - apply (proj2 (get_element_group_spec "eg_iii")).
    apply (bool_decide_unpack _). vm_compute. exact I.
  - apply (proj2 (get_element_group_spec "travels ")).
    apply (bool_decide_unpack _). vm_compute. exact I.
Defined.

End get_element_group_facts.

(** ** Spatial coverage *)

Section analyze_spatial_coverage_facts.

Implicit Types els more : list (gmap string atom).

Lemma foldl_add_zone (acc : gset atom) els :
  foldl add_zone acc els = acc ∪ zones_present els.
Proof.
  revert acc. induction els as [|el els IH]; intros acc; simpl.
  - unfold zones_present. simpl. set_solver.
  - rewrite IH. unfold add_zone, zones_present. simpl.
    destruct (el !! "zone"); simpl; set_solver.
Qed.

(** The set the loop builds is the set of distinct zone values present. *)
Lemma zones_used_present els : zones_used els = zones_present els.
Proof. unfold zones_used. rewrite foldl_add_zone. set_solver. Qed.

Lemma zones_present_app els more :
  zones_present (els ++ more) = zones_present els ∪ zones_present more.
Proof. unfold zones_present. rewrite omap_app. set_solver. Qed.

Lemma coverage_complete_iff els :
  coverage_complete (analyze_spatial_coverage els) = true ↔
  canonical_zones ⊆ zones_present els.
Proof.
  unfold analyze_spatial_coverage. simpl. rewrite zones_used_present.
  rewrite !andb_true_iff, !bool_decide_eq_true. unfold canonical_zones. set_solver.
Qed.

Lemma all_sections_used_iff els :
  all_sections_used (analyze_spatial_coverage els) = true ↔
  3 ≤ size (zones_present els).
Proof.
  unfold analyze_spatial_coverage. simpl. rewrite zones_used_present.
  by rewrite bool_decide_eq_true.
Qed.

(** C2: [coverage_complete] holds exactly when the distinct zone values
    present include [end_left], [saddle] and [end_right]; [all_sections_used]
    holds exactly when there are at least three distinct zone values;
    [zones_covered] lists those values. Hence three distinct zone strings
    that are not canonical give [all_sections_used] without
    [coverage_complete], and complete coverage survives any further
    elements, duplicates included. *)
Theorem analyze_spatial_coverage_spec els :
  let r := analyze_spatial_coverage els in
  (coverage_complete r = true ↔ canonical_zones ⊆ zones_present els)
  ∧ (all_sections_used r = true ↔ 3 ≤ size (zones_present els))
  ∧ zones_covered r = elements (zones_present els)
  ∧ (∀ a b c : string,
       zones_present els = {[ AStr a; AStr b; AStr c ]} →
       a ≠ b → a ≠ c → b ≠ c →
       AStr a ∉ canonical_zones → AStr b ∉ canonical_zones → AStr c ∉ canonical_zones →
       all_sections_used r = true ∧ coverage_complete r = false)
  ∧ (∀ more, coverage_complete r = true →
       coverage_complete (analyze_spatial_coverage (els ++ more)) = true
       ∧ coverage_complete (analyze_spatial_coverage (more ++ els)) = true).
Proof.
  intros r. subst r. split; [apply coverage_complete_iff|].
  split; [apply all_sections_used_iff|].
  split; [unfold analyze_spatial_coverage; simpl; by rewrite zones_used_present|].
  split.
  - intros a b c Hz Hab Hac Hbc Ha Hb Hc. split.
    + apply all_sections_used_iff. rewrite Hz.
      rewrite !size_union, !size_singleton; [lia| set_solver..].
    + apply not_true_is_false. rewrite coverage_complete_iff, Hz.
      unfold canonical_zones in *. set_solver.
  - intros more Hr. apply coverage_complete_iff in Hr.
    split; apply coverage_complete_iff; rewrite zones_present_app; set_solver.
Qed.

(** The examples of the specification: all three sections, two sections, a
    duplicated section, and three zone strings that are not canonical (with
    one element that has no zone at all). *)
Example analyze_spatial_coverage_examples :
  coverage_complete (analyze_spatial_coverage
    [with_zone "end_left"; with_zone "saddle"; with_zone "end_right"]) = true
  ∧ coverage_complete (analyze_spatial_coverage
    [with_zone "end_left"; with_zone "saddle"]) = false
  ∧ coverage_complete (analyze_spatial_coverage
    [with_zone "end_left"; with_zone "saddle"; with_zone "end_right";
     with_zone "end_left"]) = true
  ∧ analyze_spatial_coverage [with_zone "left"; ∅; with_zone "centre"; with_zone "right"]
    = {| zones_covered := elements ({[ AStr "left"; AStr "centre"; AStr "right" ]} : gset atom);
         all_sections_used := true;
         coverage_complete := false |}.
Proof. repeat split; vm_compute; reflexivity. Qed.

(** The theorem at a routine on three zone strings that are not canonical. *)
Lemma analyze_spatial_coverage_spec_witness :
  all_sections_used
    (analyze_spatial_coverage [with_zone "left"; with_zone "centre"; with_zone "right"])
    = true
  ∧ coverage_complete
    (analyze_spatial_coverage [with_zone "left"; with_zone "centre"; with_zone "right"])
    = false.
Proof.
  apply (proj1 (proj2 (proj2 (proj2 (analyze_spatial_coverage_spec
           [with_zone "left"; with_zone "centre"; with_zone "right"]))))
         "left" "centre" "right").
  - vm_compute. reflexivity.
  - apply (bool_decide_unpack _). vm_compute. exact I.
  - apply (bool_decide_unpack _). vm_compute. exact I.
  - apply (bool_decide_unpack _). vm_compute. exact I.
  - apply (bool_decide_unpack _). vm_compute. exact I.
  - apply (bool_decide_unpack _). vm_compute. exact I.
  - apply (bool_decide_unpack _). vm_compute. exact I.
Defined.

End analyze_spatial_coverage_facts.

(** ** Tempo strategy *)

Section analyze_tempo_strategy_facts.

Implicit Types rs before after : list (gmap string atom).

(** Each field of the result depends on one test only. *)
Lemma rhythm_pattern_eq rs :
  rhythm_pattern (analyze_tempo_strategy rs) =
  if bool_decide (size (tempo_set rs) = 1) then "metronomic" else "syncopated".
Proof.
  unfold analyze_tempo_strategy.
  destruct (any_pause rs), (bool_decide (size (tempo_set rs) = 1)),
    (bool_decide (8 < length rs)); reflexivity.
Qed.

Lemma continuity_maintained_eq rs :
  continuity_maintained (analyze_tempo_strategy rs) = negb (any_pause rs).
Proof.
  unfold analyze_tempo_strategy.
  destruct (any_pause rs), (bool_decide (size (tempo_set rs) = 1)),
    (bool_decide (8 < length rs)); reflexivity.
Qed.

Lemma fatigue_risk_zones_eq rs :
  fatigue_risk_zones (analyze_tempo_strategy rs) =
  if bool_decide (8 < length rs) then ["routine_end"] else [].
Proof.
  unfold analyze_tempo_strategy.
  destruct (any_pause rs), (bool_decide (size (tempo_set rs) = 1)),
    (bool_decide (8 < length rs)); reflexivity.
Qed.

Lemma tempo_set_elem rs t : t ∈ tempo_set rs ↔ ∃ el, el ∈ rs ∧ tempo_label el = t.
Proof.
  unfold tempo_set. rewrite elem_of_list_to_set, list_elem_of_fmap.
  unfold tempo_label. naive_solver.
Qed.

(** No label at all: only the empty routine. *)
Lemma tempo_set_empty rs : size (tempo_set rs) = 0 ↔ rs = [].
Proof.
  rewrite size_empty_iff. split.
  - destruct rs as [|el rs]; [done|]. intros He.
    assert (tempo_label el ∈ tempo_set (el :: rs)) as Hin.
    { apply tempo_set_elem. exists el. split; [left|done]. }
    rewrite He in Hin. set_solver.
  - by intros ->.
Qed.

(** One distinct label: the routine is not empty and every element carries
    the same label. *)
Lemma tempo_set_single rs :
  size (tempo_set rs) = 1 ↔
  ∃ t, rs ≠ [] ∧ Forall (fun el => tempo_label el = t) rs.
Proof.
  split.
  - intros Hs. apply size_1_elem_of in Hs as [t Ht]. exists t. split.
    + intros ->. set_solver.
    + apply Forall_forall. intros el Hel.
      assert (tempo_label el ∈ tempo_set rs) as Hin by (apply tempo_set_elem; eauto).
      rewrite Ht in Hin. set_solver.
  - intros (t & Hne & Hall). rewrite Forall_forall in Hall.
    assert (tempo_set rs ≡ {[ t ]}) as ->; [|apply size_singleton].
    intros x. rewrite tempo_set_elem, elem_of_singleton. split.
    + intros (el & Hel & <-). by apply Hall.
    + intros ->. destruct rs as [|el rs]; [done|].
      exists el. split; [left|]. apply Hall. left.
Qed.

Lemma any_pause_iff rs : any_pause rs = true ↔ ∃ el, el ∈ rs ∧ paused el = true.
Proof.
  unfold any_pause. rewrite existsb_exists. unfold paused.
  split; intros (el & Hel & Hp); exists el; (split; [by apply list_elem_of_In|done]).
Qed.

(** The empty routine has no tempo label, and is classified "syncopated". *)
Lemma rhythm_pattern_empty_syncopated :
  rhythm_pattern (analyze_tempo_strategy []) = "syncopated"
  ∧ size (tempo_set []) = 0
  ∧ (2 <=? size (tempo_set [])) = false.
Proof. repeat split. Qed.

(** C3, amended: the rhythm pattern is "metronomic" exactly when the routine
    has exactly one distinct tempo label (an absent tempo counting as
    "moderate"), that is, when it is not empty and all its elements share one
    label; it is "syncopated" exactly when there are two or more distinct
    labels or the routine is empty. Either way the value lies in the declared
    domain. *)
Theorem rhythm_pattern_spec rs :
  let p := rhythm_pattern (analyze_tempo_strategy rs) in
  (p = "metronomic" ↔ size (tempo_set rs) = 1)
  ∧ (p = "syncopated" ↔ 2 ≤ size (tempo_set rs) ∨ rs = [])
  ∧ (p = "metronomic" ↔ ∃ t, rs ≠ [] ∧ Forall (fun el => tempo_label el = t) rs)
  ∧ (p = "metronomic" ∨ p = "syncopated").
Proof.
  intros p. subst p. rewrite rhythm_pattern_eq, <- tempo_set_single.
  pose proof (tempo_set_empty rs) as He.
  case_bool_decide as Hs.
  - repeat split; try done; try (by left).
    intros [?|Hn]; [lia|]. apply He in Hn. lia.
  - repeat split; try done; try (by right).
    intros _. destruct (decide (size (tempo_set rs) = 0)) as [H0|H0];
      [right; by apply He|left; lia].
Qed.

(** The examples of the specification: one shared tempo, two tempos, and an
    absent tempo read as "moderate". *)
Example rhythm_pattern_examples :
  rhythm_pattern (analyze_tempo_strategy
    [with_tempo "fast"; with_tempo "fast"; with_tempo "fast"]) = "metronomic"
  ∧ rhythm_pattern (analyze_tempo_strategy
    [with_tempo "fast"; with_tempo "moderate"]) = "syncopated"
  ∧ rhythm_pattern (analyze_tempo_strategy [∅; with_tempo "moderate"]) = "metronomic".
Proof. repeat split; vm_compute; reflexivity. Qed.

(** C10: the rhythm pattern returned is "metronomic" or "syncopated" for
    every input list; the initial value "unknown" is always overwritten, and
    the empty list, with no tempo label at all, yields "syncopated". *)
Theorem rhythm_pattern_never_unknown rs :
  let p := rhythm_pattern (analyze_tempo_strategy rs) in
  (p = "metronomic" ∨ p = "syncopated")
  ∧ p ≠ "unknown"
  ∧ rhythm_pattern (analyze_tempo_strategy []) = "syncopated"
  ∧ size (tempo_set []) = 0.
Proof.
  intros p. subst p. rewrite rhythm_pattern_eq.
  case_bool_decide; repeat split; auto; done.
Qed.

(** C6: continuity is maintained exactly when no element has a truthy pause
    flag, so one paused element anywhere in the routine breaks it; the
    fatigue-risk zones are ["routine_end"] when the routine has more than 8
    elements and empty otherwise. *)
Theorem continuity_and_fatigue_spec rs :
  let r := analyze_tempo_strategy rs in
  (continuity_maintained r = true ↔ Forall (fun el => paused el = false) rs)
  ∧ (continuity_maintained r = false ↔ ∃ el, el ∈ rs ∧ paused el = true)
  ∧ (∀ before el after, paused el = true →
       continuity_maintained (analyze_tempo_strategy (before ++ el :: after)) = false)
  ∧ fatigue_risk_zones r = (if bool_decide (8 < length rs) then ["routine_end"] else [])
  ∧ ("routine_end" ∈ fatigue_risk_zones r ↔ 8 < length rs).
Proof.
  intros r. subst r.
  assert (∀ l, continuity_maintained (analyze_tempo_strategy l) = false ↔
               ∃ el, el ∈ l ∧ paused el = true) as Hfalse.
  { intros l. rewrite continuity_maintained_eq, negb_false_iff. apply any_pause_iff. }
  split; [|split; [apply Hfalse|split]].
  - rewrite Forall_forall. split.
    + intros Hc el Hel. apply not_true_is_false. intros Hp.
      assert (continuity_maintained (analyze_tempo_strategy rs) = false) as Hf
        by (apply Hfalse; eauto).
      congruence.
    + intros Hall. apply not_false_is_true. intros Hf.
      apply Hfalse in Hf as (el & Hel & Hp). by rewrite (Hall el Hel) in Hp.
  - intros before el after Hp. apply Hfalse. exists el. split; [|done].
    apply elem_of_app. right. left.
  - rewrite fatigue_risk_zones_eq. split; [done|].
    case_bool_decide; split; try done; try lia.
    + intros _. left.
    + intros H1. by apply elem_of_nil in H1.
Qed.

(** Eight elements raise no fatigue flag, nine do. *)
Example fatigue_threshold :
  fatigue_risk_zones (analyze_tempo_strategy (replicate 8 ∅)) = []
  ∧ fatigue_risk_zones (analyze_tempo_strategy (replicate 9 ∅)) = ["routine_end"].
Proof. split; vm_compute; reflexivity. Qed.

(** The theorem at a routine whose middle element is paused. *)
Lemma continuity_and_fatigue_spec_witness :
  continuity_maintained (analyze_tempo_strategy
    ([with_tempo "fast"] ++ <["pause" := ABool true]> (with_tempo "fast")
       :: [with_tempo "fast"])) = false.
Proof.
  apply (proj1 (proj2 (proj2 (continuity_and_fatigue_spec [])))
           [with_tempo "fast"] (<["pause" := ABool true]> (with_tempo "fast"))
           [with_tempo "fast"]).
  vm_compute. reflexivity.
Defined.

End analyze_tempo_strategy_facts.

(** ** Form quality *)

Section assess_form_quality_facts.

Implicit Types e : gmap string atom.

(** The function reads its record through seven tests only; a proof by
    cases on their outcomes covers every record. *)
Ltac form_cases e :=
  unfold assess_form_quality, fired, form_rules, subtract_all,
    flag_is_false, flag_is_true, is_scissor; simpl;
  generalize (truthy (get e "body_extended" (ABool true)))
             (truthy (get e "legs_straight" (ABool true)))
             (truthy (get e "toes_pointed" (ABool true)))
             (bool_decide (e !! "element_type" = Some (AStr "scissor")))
             (truthy (get e "above_shoulder" (ABool true)))
             (truthy (get e "brushing" (ABool false)))
             (truthy (get e "hitting" (ABool false)));
  intros [] [] [] [] [] [] [].

(** The code against the table: the deductions are the names of the fired
    rules in table order, and the score is 10.0 less their penalties, taken
    off one by one. The floor of [max(0, _)] is never reached. *)
Lemma assess_form_quality_table e :
  assess_form_quality e =
  {| quality_score := NumFloat (subtract_all 10 (rule_penalty <$> fired e));
     deductions := rule_deduction <$> fired e;
     form_assessment := match fired e with [] => "clean" | _ => "errors_present" end |}.
Proof. form_cases e; reflexivity. Qed.

(** Every score lies between the score of [all_violated] and 10.0. *)
#[warnings="-inexact-float"] Lemma assess_form_quality_bounds e :
  ∃ f, quality_score (assess_form_quality e) = NumFloat f
       ∧ (0 <=? f)%float = true
       ∧ (8.599999999999998 <=? f)%float = true
       ∧ (f <=? 10)%float = true.
Proof. form_cases e; eexists; (split; [reflexivity|repeat split]). Qed.

(** A rule's name is among the names of the selected rules exactly when the
    rule is selected, names being distinct. *)
Lemma elem_of_filter_names {A} (name : A → string) (P : A → bool) (l : list A) (x : A) :
  NoDup (name <$> l) → x ∈ l →
  name x ∈ name <$> List.filter P l ↔ P x = true.
Proof.
  induction l as [|y l IH]; intros Hnd Hx; [by apply elem_of_nil in Hx|].
  apply NoDup_cons in Hnd as [Hy Hnd]. simpl.
  apply elem_of_cons in Hx as [->|Hx].
  - destruct (P y) eqn:HP.
    + split; [done|]. intros _. left.
    + split; [|done]. intros Hin. destruct Hy.
      apply list_elem_of_fmap in Hin as (z & Hz & Hin).
      apply list_elem_of_In, filter_In in Hin as [Hin _].
      rewrite Hz. apply list_elem_of_fmap_2. by apply list_elem_of_In.
  - assert (name x ≠ name y) as Hne.
    { intros Heq. apply Hy. rewrite <- Heq. by apply list_elem_of_fmap_2. }
    destruct (P y); [|by apply IH].
    rewrite fmap_cons, elem_of_cons. rewrite (IH Hnd Hx). naive_solver.
Qed.

Lemma form_rule_names_NoDup : NoDup (rule_deduction <$> form_rules).
Proof. apply (bool_decide_unpack _). vm_compute. exact I. Qed.

(** The record of the specification's example scores one unit in the last
    place below 9.4. *)
#[warnings="-inexact-float"] Lemma example_execution_not_9_4 :
  quality_score (assess_form_quality example_execution) = NumFloat 9.399999999999999
  ∧ (9.399999999999999 =? 9.4)%float = false
  ∧ (9.399999999999999 <? 9.4)%float = true
  ∧ next_up 9.399999999999999 = 9.4%float.
Proof. repeat split. Qed.

(** C1, amended: [assess_form_quality] starts from 10.0 and, for each rule
    of the table that the record triggers, appends the rule's deduction and
    subtracts its penalty (0.3 for [lack_of_extension], [bent_knees],
    [lack_of_amplitude] and [hitting]; 0.1 for [flexed_feet] and [brushing]);
    a deduction is listed exactly when its rule fires; the assessment is
    "clean" exactly when no rule fires and "errors_present" otherwise; the
    empty record scores 10.0 with no deduction; and the example record yields
    [lack_of_extension] and [hitting] with the binary64 score
    (10.0 - 0.3) - 0.3 = 9.399999999999999. *)
#[warnings="-inexact-float"] Theorem assess_form_quality_spec e :
  let r := assess_form_quality e in
  deductions r = rule_deduction <$> fired e
  ∧ quality_score r = NumFloat (subtract_all 10 (rule_penalty <$> fired e))
  ∧ (∀ rule, rule ∈ form_rules →
       rule_deduction rule ∈ deductions r ↔ rule_fires rule e = true)
  ∧ (form_assessment.form_assessment r = "clean" ↔ deductions r = [])
  ∧ (form_assessment.form_assessment r = "errors_present" ↔ deductions r ≠ [])
  ∧ (rule_deduction <$> form_rules
     = ["lack_of_extension"; "bent_knees"; "flexed_feet"; "lack_of_amplitude";
        "brushing"; "hitting"]
     ∧ rule_penalty <$> form_rules = [0.3; 0.3; 0.1; 0.3; 0.1; 0.3]%float)
  ∧ assess_form_quality ∅
    = {| quality_score := NumFloat 10; deductions := []; form_assessment := "clean" |}
  ∧ assess_form_quality example_execution
    = {| quality_score := NumFloat 9.399999999999999;
         deductions := ["lack_of_extension"; "hitting"];
         form_assessment := "errors_present" |}.
Proof.
  intros r. subst r. rewrite assess_form_quality_table. simpl.
  split; [done|]. split; [done|]. split; [|split; [|split; [|repeat split]]].
  - intros rule Hrule.
    apply (elem_of_filter_names rule_deduction (fun r => rule_fires r e));
      [apply form_rule_names_NoDup|done].
  - destruct (fired e); simpl; split; done.
  - destruct (fired e); simpl; split; done.
Qed.

(** The record that breaks every rule draws six deductions worth 1.4, not
    1.3: it scores 8.599999999999998, below 8.7. *)
#[warnings="-inexact-float"] Lemma all_violated_not_8_7 :
  assess_form_quality all_violated
  = {| quality_score := NumFloat 8.599999999999998;
       deductions := ["lack_of_extension"; "bent_knees"; "flexed_feet";
                      "lack_of_amplitude"; "brushing"; "hitting"];
       form_assessment := "errors_present" |}
  ∧ (8.599999999999998 =? 8.7)%float = false
  ∧ (8.599999999999998 <? 8.65)%float = true.
Proof. repeat split. Qed.

(** C5, amended: the record that breaks every rule of the table draws all
    six deductions and scores the binary64 result of taking 0.3, 0.3, 0.1,
    0.3, 0.1 and 0.3 off 10.0 in turn, 8.599999999999998 (10.0 - 1.4 up to
    rounding); and for every record the score is a float that is not
    negative: it is never below that value and never above 10.0. *)
#[warnings="-inexact-float"] Theorem quality_score_floor e :
  (quality_score (assess_form_quality all_violated) = NumFloat 8.599999999999998
   ∧ length (deductions (assess_form_quality all_violated)) = 6
   ∧ subtract_all 10 [0.3; 0.3; 0.1; 0.3; 0.1; 0.3]%float = 8.599999999999998%float)
  ∧ ∃ f, quality_score (assess_form_quality e) = NumFloat f
         ∧ (0 <=? f)%float = true
         ∧ (8.599999999999998 <=? f)%float = true
         ∧ (f <=? 10)%float = true.
Proof. split; [repeat split|apply assess_form_quality_bounds]. Qed.

End assess_form_quality_facts.

(** ** Spatial composition *)

Section analyze_spatial_composition_facts.

Implicit Types z s t : option string.

Lemma subtable_sections :
  subtable SPATIAL_ZONES "apparatus_sections" = Some apparatus_sections.
Proof. reflexivity. Qed.

Lemma get_support_config_eq name :
  get_support_config name
  = Some (default (VDict []) (dict_get support_configurations name)).
Proof. reflexivity. Qed.

Lemma get_trajectory_pattern_eq name :
  get_trajectory_pattern name
  = Some (default (VDict []) (dict_get trajectory_patterns name)).
Proof. reflexivity. Qed.

(** The three catalogues and their keys. *)
Lemma spatial_table_keys :
  map fst apparatus_sections = ["end_left"; "saddle"; "end_right"]
  ∧ map fst support_configurations
    = ["between_pommels"; "single_pommel"; "leather_only"; "one_pommel_one_leather"]
  ∧ map fst trajectory_patterns
    = ["stationary_circle"; "longitudinal_travel"; "transverse_circle"; "diagonal_path"].
Proof. repeat split. Qed.

(** An entry found in a table of non-empty dicts is truthy, so [if config:]
    separates found from not found. *)
Lemma dict_get_truthy (table : dict) k v :
  Forall (fun e => pyval_truthy e.2 = true) table →
  dict_get table k = Some v → pyval_truthy v = true.
Proof.
  induction 1 as [|[k' v'] table Hv _ IH]; simpl; [done|].
  destruct (String.eqb k' k); [by intros [= <-]|done].
Qed.

Lemma support_configurations_truthy :
  Forall (fun e => pyval_truthy e.2 = true) support_configurations.
Proof. repeat constructor. Qed.

Lemma trajectory_patterns_truthy :
  Forall (fun e => pyval_truthy e.2 = true) trajectory_patterns.
Proof. repeat constructor. Qed.

Opaque apparatus_sections support_configurations trajectory_patterns.

(** Every field of the response. The call never raises; the one ["error"]
    slot ends up with the message written last. *)
Lemma analyze_spatial_composition_fields z s t :
  ∃ r, analyze_spatial_composition z s t = Some r
    ∧ r !! "spatial_zones" = Some (VDict SPATIAL_ZONES)
    ∧ r !! "apparatus_specs" = Some (VDict APPARATUS_SPECS)
    ∧ r !! "focused_zone" = found_in apparatus_sections z
    ∧ r !! "support_details" = found_in support_configurations s
    ∧ r !! "trajectory_details" = found_in trajectory_patterns t
    ∧ r !! "error" = last (owed_errors z s t)
    ∧ dom r ⊆ {[ "spatial_zones"; "apparatus_specs"; "focused_zone";
                 "support_details"; "trajectory_details"; "error" ]}.
Proof.
  unfold analyze_spatial_composition, owed_errors, found_in, unknown_in.
  generalize (VDict SPATIAL_ZONES) (VDict APPARATUS_SPECS). intros Z A.
  rewrite subtable_sections.
  destruct (requested z) as [zk|], (requested s) as [sk|], (requested t) as [tk|];
    cbv beta iota;
    rewrite ?get_support_config_eq, ?get_trajectory_pattern_eq; simpl;
    try (destruct (dict_get apparatus_sections zk) as [zv|] eqn:Hz; simpl);
    try (destruct (dict_get support_configurations sk) as [sv|] eqn:Hs; simpl;
         [rewrite (dict_get_truthy _ _ _ support_configurations_truthy Hs)|]);
    try (destruct (dict_get trajectory_patterns tk) as [tv|] eqn:Ht; simpl;
         [rewrite (dict_get_truthy _ _ _ trajectory_patterns_truthy Ht)|]);
  eexists; (split; [reflexivity|]);
  repeat split; try (by simplify_map_eq); rewrite ?dom_insert_L, ?dom_empty_L; set_solver.
Qed.

Transparent apparatus_sections support_configurations trajectory_patterns.

Lemma last_is_Some {A} (l : list A) : is_Some (last l) ↔ l ≠ [].
Proof.
  destruct l as [|x l] using rev_ind; [split; [by intros []|done]|].
  rewrite last_snoc. split; [|by eexists]. intros _ H. by destruct l.
Qed.

Lemma last_elem_of {A} (l : list A) x : last l = Some x → x ∈ l.
Proof.
  destruct l as [|y l] using rev_ind; [done|].
  rewrite last_snoc. intros [= ->]. apply elem_of_app. right. left.
Qed.

(** Two unknown keys, one error: with an unknown zone and an unknown support
    configuration the response has exactly three fields, and its only error
    is the support-configuration message; the zone message is in no field. *)
Lemma two_unknown_keys_one_error :
  owed_errors (Some "pommel") (Some "no_hands") None
  = [zone_error "pommel"; support_error "no_hands"]
  ∧ analyze_spatial_composition (Some "pommel") (Some "no_hands") None
    = Some (<["error" := VStr "Support config 'no_hands' not found"]>
              (<["apparatus_specs" := VDict APPARATUS_SPECS]>
                 (<["spatial_zones" := VDict SPATIAL_ZONES]> ∅)))
  ∧ ∃ r, analyze_spatial_composition (Some "pommel") (Some "no_hands") None = Some r
         ∧ ¬ carries r (zone_error "pommel").
Proof.
  split; [reflexivity|]. split; [vm_compute; reflexivity|].
  eexists. split; [vm_compute; reflexivity|].
  intros [k Hk]. revert Hk.
  change (GMap _) with
    (<["error" := VStr "Support config 'no_hands' not found"]>
       (<["apparatus_specs" := VDict APPARATUS_SPECS]>
          (<["spatial_zones" := VDict SPATIAL_ZONES]> (∅ : gmap string pyval)))).
  rewrite !lookup_insert. repeat case_decide; try done.
Qed.

(** What holds of every entry of a table holds of what a lookup finds. *)
Lemma dict_get_Forall (P : pyval → Prop) (table : dict) k v :
  Forall (fun e => P e.2) table → dict_get table k = Some v → P v.
Proof.
  induction 1 as [|[k' v'] table Hv _ IH]; simpl; [done|].
  destruct (String.eqb k' k); [by intros [= <-]|done].
Qed.

Lemma found_in_Forall (P : pyval → Prop) (table : dict) arg v :
  Forall (fun e => P e.2) table → found_in table arg = Some v → P v.
Proof.
  intros Hall. unfold found_in. destruct (requested arg) as [k|]; simpl; [|done].
  by apply dict_get_Forall.
Qed.

(** Every entry of the three catalogues is a dict, and no message is. *)
Lemma spatial_entries_are_dicts :
  Forall (fun e => is_Some (as_dict e.2)) apparatus_sections
  ∧ Forall (fun e => is_Some (as_dict e.2)) support_configurations
  ∧ Forall (fun e => is_Some (as_dict e.2)) trajectory_patterns.
Proof. repeat split; repeat constructor; by eexists. Qed.

Lemma not_found_message_not_dict v :
  is_not_found_message v → is_Some (as_dict v) → False.
Proof. intros (k & [->|[->| ->]]) [d Hd]; done. Qed.

(** C7, amended: the call always succeeds and always carries the full
    reference data; each requested key that is found adds its focused
    sub-entry, whatever happens to the other keys; the response has a single
    ["error"] field, present exactly when some requested key is unknown, and
    then holding the not-found message of one of the unknown keys (of that
    key when only one is unknown). The response has no field beyond the six
    named ones, no field other than ["error"] holds a not-found message, and
    so it never carries more than one error value. An absent or empty key
    counts as not requested. *)
Theorem analyze_spatial_composition_errors z s t :
  ∃ r, analyze_spatial_composition z s t = Some r
    ∧ r !! "spatial_zones" = Some (VDict SPATIAL_ZONES)
    ∧ r !! "apparatus_specs" = Some (VDict APPARATUS_SPECS)
    ∧ r !! "focused_zone" = found_in apparatus_sections z
    ∧ r !! "support_details" = found_in support_configurations s
    ∧ r !! "trajectory_details" = found_in trajectory_patterns t
    ∧ (is_Some (r !! "error") ↔ owed_errors z s t ≠ [])
    ∧ (∀ m, r !! "error" = Some m → m ∈ owed_errors z s t)
    ∧ (∀ m, owed_errors z s t = [m] → r !! "error" = Some m)
    ∧ dom r ⊆ response_fields
    ∧ (∀ k v, r !! k = Some v → is_not_found_message v → k = "error")
    ∧ (∀ m1 m2, carries r m1 → carries r m2 →
         is_not_found_message m1 → is_not_found_message m2 → m1 = m2).
Proof.
  destruct (analyze_spatial_composition_fields z s t)
    as (r & Hr & HZ & HA & Hz & Hs & Ht & He & Hdom).
  destruct spatial_entries_are_dicts as (Dz & Ds & Dt).
  assert (∀ k v, r !! k = Some v → is_not_found_message v → k = "error") as Hone.
  { intros k v Hk Hv.
    assert (k ∈ dom r) as Hin by (apply elem_of_dom; by eexists).
    apply Hdom in Hin. rewrite !elem_of_union, !elem_of_singleton in Hin.
    destruct Hin as [[[[[->| ->]| ->]| ->]| ->]| ->]; [exfalso..|done];
      apply (not_found_message_not_dict v Hv).
    - rewrite HZ in Hk. injection Hk as <-. by eexists.
    - rewrite HA in Hk. injection Hk as <-. by eexists.
    - rewrite Hz in Hk. exact (found_in_Forall (fun v => is_Some (as_dict v)) _ _ _ Dz Hk).
    - rewrite Hs in Hk. exact (found_in_Forall (fun v => is_Some (as_dict v)) _ _ _ Ds Hk).
    - rewrite Ht in Hk. exact (found_in_Forall (fun v => is_Some (as_dict v)) _ _ _ Dt Hk). }
  exists r. repeat split; try done.
  - rewrite He. by apply last_is_Some.
  - rewrite He. by intros ?%last_is_Some.
  - intros m. rewrite He. apply last_elem_of.
  - intros m Hm. by rewrite He, Hm.
  - intros m1 m2 [k1 Hk1] [k2 Hk2] Hm1 Hm2.
    rewrite (Hone _ _ Hk1 Hm1) in Hk1. rewrite (Hone _ _ Hk2 Hm2) in Hk2. congruence.
Qed.

(** The theorem at a call with a known zone and one unknown key, and at a
    call with two unknown keys. *)
Lemma analyze_spatial_composition_errors_witness :
  (∃ r, analyze_spatial_composition (Some "saddle") None (Some "zigzag") = Some r
     ∧ r !! "error" = Some (trajectory_error "zigzag")
     ∧ r !! "focused_zone" = dict_get apparatus_sections "saddle")
  ∧ (∃ r, analyze_spatial_composition (Some "pommel") (Some "no_hands") None = Some r
     ∧ r !! "focused_zone" = None
     ∧ r !! "support_details" = None
     ∧ (∀ m1 m2, carries r m1 → carries r m2 →
          is_not_found_message m1 → is_not_found_message m2 → m1 = m2)).
Proof.
  split.
  - destruct (analyze_spatial_composition_errors (Some "saddle") None (Some "zigzag"))
      as (r & Hr & _ & _ & Hz & _ & _ & _ & _ & Hone & _).
    exists r. split; [exact Hr|]. split; [|exact Hz].
    apply Hone. vm_compute. reflexivity.
  - destruct (analyze_spatial_composition_errors (Some "pommel") (Some "no_hands") None)
      as (r & Hr & _ & _ & Hz & Hs & _ & _ & _ & _ & _ & _ & Hsingle).
    exists r. split; [exact Hr|]. split; [exact Hz|]. split; [exact Hs|exact Hsingle].
Defined.

End analyze_spatial_composition_facts.

(** ** Routine structure *)

Section map_routine_structure_facts.

Implicit Types seq : list (gmap string atom).
Implicit Types sp tp : bool.

Lemma foldl_scan_element_groups (st : gset string * gmap atom nat) seq :
  (foldl scan_element st seq).1 = st.1 ∪ groups_present seq.
Proof.
  revert st. induction seq as [|el seq IH]; intros st; simpl.
  - unfold groups_present. simpl. set_solver.
  - rewrite IH. unfold scan_element, groups_present, group_of_element. simpl.
    destruct (element_group_of _); simpl; set_solver.
Qed.

(** The set the loop builds is the set of groups of the classified
    elements. *)
Lemma scan_groups seq : (scan seq).1 = groups_present seq.
Proof. unfold scan. rewrite foldl_scan_element_groups. simpl. set_solver. Qed.

Lemma element_group_of_reachable a g :
  element_group_of a = Some g → g ∈ reachable_groups.
Proof.
  unfold element_group_of, reachable_groups.
  repeat case_bool_decide; intros [= <-]; set_solver.
Qed.

Lemma groups_present_reachable seq : groups_present seq ⊆ reachable_groups.
Proof.
  intros g. unfold groups_present. rewrite elem_of_list_to_set, list_elem_of_omap.
  intros (el & _ & Hg). by eapply element_group_of_reachable.
Qed.

Lemma size_reachable_groups : size reachable_groups = 4.
Proof. reflexivity. Qed.

Lemma element_groups_present_eq seq sp tp :
  element_groups_present (map_routine_structure seq sp tp)
  = elements (groups_present seq).
Proof. unfold map_routine_structure. simpl. by rewrite scan_groups. Qed.

(** The verdict and the notes, from the three checks. *)
Lemma map_routine_structure_verdict seq sp tp :
  let a := map_routine_structure seq sp tp in
  let enough := bool_decide (4 ≤ size (groups_present seq)) in
  let covered := coverage_complete (analyze_spatial_coverage seq) in
  let continuous := continuity_maintained (analyze_tempo_strategy seq) in
  structure_valid a = enough && implb sp covered && implb tp continuous
  ∧ notes a
    = (if enough then [] else [note_variety])
      ++ (if sp && negb covered then [note_coverage] else [])
      ++ (if tp && negb continuous then [note_continuity] else []).
Proof.
  intros a enough covered continuous.
  subst a enough covered continuous. rewrite <- scan_groups.
  unfold map_routine_structure, size, set_size.
  generalize (analyze_spatial_coverage seq) (analyze_tempo_strategy seq) (scan seq).
  intros c t s.
  destruct sp, tp; simpl;
    destruct (coverage_complete c), (continuity_maintained t); simpl;
    repeat case_bool_decide; try lia; split; reflexivity.
Qed.

(** The classifier of the code against the keyword table. *)
Lemma keyword_groups_of_elem el g : g ∈ keyword_groups_of el ↔ in_group el g.
Proof.
  unfold keyword_groups_of, in_group. rewrite list_elem_of_omap. split.
  - intros ([kw g'] & Hin & Hg). simpl in Hg. case_decide as Hel; [|done].
    injection Hg as ->. by exists kw.
  - intros (kw & Hel & Hin). exists (kw, g). split; [done|]. simpl.
    by rewrite decide_True.
Qed.

Lemma get_element_type el (kw : string) :
  kw ≠ "unknown" →
  get el "element_type" (AStr "unknown") = AStr kw ↔ el !! "element_type" = Some (AStr kw).
Proof.
  intros Hne. unfold get. destruct (el !! "element_type") as [a|]; split; congruence.
Qed.

Lemma group_of_element_keyword el g : group_of_element el = Some g ↔ in_group el g.
Proof.
  unfold in_group. split.
  - unfold group_of_element, element_group_of.
    repeat case_bool_decide; intros [= <-];
      match goal with
      | H : get _ _ _ ∈ _ |- _ =>
          repeat (apply elem_of_cons in H as [H|H]);
          [..|by apply elem_of_nil in H];
          (apply get_element_type in H; [|done]);
          eexists; (split; [exact H|]);
          apply (bool_decide_unpack _); vm_compute; exact I
      end.
  - intros (kw & Hel & Hin). unfold keyword_groups in Hin.
    repeat (apply elem_of_cons in Hin as [[= -> ->]|Hin]);
      try (by apply elem_of_nil in Hin);
      unfold group_of_element, get; rewrite Hel; reflexivity.
Qed.

Lemma groups_present_distinct seq : groups_present seq = distinct_groups seq.
Proof.
  apply set_eq. intros g. unfold groups_present, distinct_groups.
  rewrite !elem_of_list_to_set, list_elem_of_omap, list_elem_of_bind.
  split; intros (el & H1 & H2); exists el.
  - split; [|done]. apply keyword_groups_of_elem. by apply group_of_element_keyword.
  - split; [done|]. apply group_of_element_keyword. by apply keyword_groups_of_elem.
Qed.

Lemma continuity_maintained_iff seq :
  continuity_maintained (analyze_tempo_strategy seq) = true ↔
  Forall (fun el => paused el = false) seq.
Proof.
  rewrite continuity_maintained_eq, negb_true_iff, Forall_forall.
  split.
  - intros Hn el Hel. apply not_true_is_false. intros Hp.
    assert (any_pause seq = true) by (apply any_pause_iff; eauto). congruence.
  - intros Hall. apply not_true_is_false. intros (el & Hel & Hp)%any_pause_iff.
    rewrite (Hall el Hel) in Hp. done.
Qed.

(** C4: [structure_valid] is the conjunction of "at least 4 distinct element
    groups", the spatial validator's [coverage_complete] when
    [include_spatial] is set, and the temporal validator's
    [continuity_maintained] when [include_temporal] is set; each failing
    check appends its own note, in that order; fewer than 4 distinct groups
    gives [structure_valid = false] and the variety note whatever the flags;
    [synthesis_ready] equals [structure_valid]. The distinct groups are
    those of the keyword table: the structure is valid exactly when the
    routine has elements of four groups, covers the three canonical zones
    when the spatial analysis is on, and has no paused element when the
    temporal analysis is on; the groups listed are distinct and are exactly
    the groups some element is of. *)
Theorem map_routine_structure_validity seq sp tp :
  let a := map_routine_structure seq sp tp in
  let enough := bool_decide (4 ≤ size (distinct_groups seq)) in
  let covered := coverage_complete (analyze_spatial_coverage seq) in
  let continuous := continuity_maintained (analyze_tempo_strategy seq) in
  structure_valid a = enough && implb sp covered && implb tp continuous
  ∧ notes a
    = (if enough then [] else [note_variety])
      ++ (if sp && negb covered then [note_coverage] else [])
      ++ (if tp && negb continuous then [note_continuity] else [])
  ∧ synthesis_ready a = structure_valid a
  ∧ (size (distinct_groups seq) < 4 →
       structure_valid a = false ∧ note_variety ∈ notes a)
  ∧ (structure_valid a = true ↔
       4 ≤ size (distinct_groups seq)
       ∧ (sp = true → canonical_zones ⊆ zones_present seq)
       ∧ (tp = true → Forall (fun el => paused el = false) seq))
  ∧ NoDup (element_groups_present a)
  ∧ length (element_groups_present a) = size (distinct_groups seq)
  ∧ (∀ g, g ∈ element_groups_present a ↔ ∃ el, el ∈ seq ∧ in_group el g).
Proof.
  intros a enough covered continuous.
  destruct (map_routine_structure_verdict seq sp tp) as [Hv Hn].
  rewrite groups_present_distinct in Hv, Hn.
  fold a enough covered continuous in Hv, Hn.
  split; [done|]. split; [done|]. split; [reflexivity|].
  split; [|split; [|split; [|split]]].
  - intros Hlt. rewrite Hv, Hn. subst enough.
    rewrite bool_decide_eq_false_2 by lia. split; [done|]. left.
  - rewrite Hv, !andb_true_iff. subst enough covered continuous.
    rewrite bool_decide_eq_true.
    rewrite <- coverage_complete_iff, <- continuity_maintained_iff.
    destruct sp, tp; simpl; intuition congruence.
  - subst a. rewrite element_groups_present_eq. apply NoDup_elements.
  - subst a. by rewrite element_groups_present_eq, groups_present_distinct.
  - intros g. subst a.
    rewrite element_groups_present_eq, elem_of_elements, groups_present_distinct.
    unfold distinct_groups. rewrite elem_of_list_to_set, list_elem_of_bind.
    split; intros (el & H1 & H2); exists el.
    + split; [done|]. by apply keyword_groups_of_elem.
    + split; [|done]. by apply keyword_groups_of_elem.
Qed.

(** A complete routine is valid; one circle alone fails the variety and the
    coverage checks, with both notes. *)
Example map_routine_structure_examples :
  structure_valid (map_routine_structure full_routine true true) = true
  ∧ notes (map_routine_structure full_routine true true) = []
  ∧ structure_valid (map_routine_structure [routine_element "circle" "saddle"] true true)
    = false
  ∧ notes (map_routine_structure [routine_element "circle" "saddle"] true true)
    = [note_variety; note_coverage].
Proof. repeat split; vm_compute; reflexivity. Qed.

(** The theorem at a complete routine, which is valid, and at a routine of
    three groups with both analyses off, which is not. *)
Lemma map_routine_structure_validity_witness :
  structure_valid (map_routine_structure full_routine true true) = true
  ∧ structure_valid (map_routine_structure (take 3 full_routine) false false) = false
  ∧ note_variety ∈ notes (map_routine_structure (take 3 full_routine) false false).
Proof.
  split.
  - apply (proj2 (proj1 (proj2 (proj2 (proj2 (proj2
             (map_routine_structure_validity full_routine true true))))))).
    split; [vm_compute; lia|]. split; intros _.
    + apply (bool_decide_unpack _). vm_compute. exact I.
    + apply (bool_decide_unpack _). vm_compute. exact I.
  - apply (proj1 (proj2 (proj2 (proj2
             (map_routine_structure_validity (take 3 full_routine) false false))))).
    vm_compute. lia.
Defined.

(** C9: no element type is classified as [spindles_handstands] ("spindle"
    goes to [circles_flairs]), so that group, although one of the five of the
    taxonomy, is never among the groups present; at most 4 groups are
    present, and a valid structure has all of [circles_flairs],
    [scissors_single_leg], [travels] and [dismounts]. *)
Theorem spindles_handstands_unreachable seq sp tp :
  let a := map_routine_structure seq sp tp in
  ("spindles_handstands" ∉ element_groups_present a)
  ∧ element_group_of (AStr "spindle") = Some "circles_flairs"
  ∧ (∀ x, element_group_of x ≠ Some "spindles_handstands")
  ∧ dict_mem ELEMENT_GROUPS "spindles_handstands" = true
  ∧ length ELEMENT_GROUPS = 5
  ∧ length (element_groups_present a) ≤ 4
  ∧ (structure_valid a = true →
       ∀ g, g ∈ ["circles_flairs"; "scissors_single_leg"; "travels"; "dismounts"] →
            g ∈ element_groups_present a).
Proof.
  intros a. pose proof (groups_present_reachable seq) as Hsub.
  split; [|split; [reflexivity|split; [|split; [reflexivity|split; [reflexivity|split]]]]].
  - subst a. rewrite element_groups_present_eq, elem_of_elements.
    intros Hin. apply Hsub in Hin. unfold reachable_groups in Hin. set_solver.
  - intros x Hx. apply element_group_of_reachable in Hx.
    unfold reachable_groups in Hx. set_solver.
  - subst a. rewrite element_groups_present_eq.
    change (size (groups_present seq) ≤ 4).
    rewrite <- size_reachable_groups. by apply subseteq_size.
  - intros Hv g Hg.
    destruct (map_routine_structure_verdict seq sp tp) as (Hval & _).
    fold a in Hval. rewrite Hv in Hval. symmetry in Hval.
    apply andb_true_iff in Hval as [Hval _]. apply andb_true_iff in Hval as [Hval _].
    apply bool_decide_eq_true in Hval.
    assert (groups_present seq = reachable_groups) as Heq.
    { apply set_subseteq_size_eq; [done|]. rewrite size_reachable_groups. lia. }
    subst a. rewrite element_groups_present_eq, elem_of_elements, Heq.
    unfold reachable_groups. set_solver.
Qed.

(** The theorem at a valid routine: the travels group is present. *)
Lemma spindles_handstands_unreachable_witness :
  "travels" ∈ element_groups_present (map_routine_structure full_routine true true).
Proof.
  apply (proj2 (proj2 (proj2 (proj2 (proj2 (proj2
           (spindles_handstands_unreachable full_routine true true))))))).
  - vm_compute. reflexivity.
  - apply (bool_decide_unpack _). vm_compute. exact I.
Defined.

End map_routine_structure_facts.

(** ** Element vocabulary *)

Section element_vocabulary_facts.

Lemma get_element_group_unknown group_id :
  group_id ∉ valid_group_identifiers → get_element_group group_id = None.
Proof.
  intros Hn. destruct (get_element_group group_id) as [group|] eqn:Hg; [|done].
  destruct (get_element_group_in_Some _ _ _ Hg) as (key & Hin & Hm).
  destruct Hn. by eapply matching_is_valid.
Qed.

Ltac valid_cases H :=
  unfold valid_group_identifiers, group_short_ids, group_semantic_names in H;
  simpl in H; repeat (apply elem_of_cons in H as [->|H]); [..|by apply elem_of_nil in H].

(** X1: [get_movements_by_group] never raises and always returns a dict.
    The dict is empty exactly when the identifier is unknown or names the
    dismounts group, whose record has no ["movements"] key; otherwise it is
    the ["movements"] entry of the group's record. *)
Theorem get_movements_by_group_spec (group_id : string) :
  ∃ m, get_movements_by_group group_id = Some (VDict m)
    ∧ (m = [] ↔ group_id ∉ valid_group_identifiers ∨ group_id ∈ dismount_identifiers)
    ∧ (∀ group d, get_element_group group_id = Some group → as_dict group = Some d →
         m = [] ∧ dict_get d "movements" = None ∨ dict_get d "movements" = Some (VDict m)).
Proof.
  destruct (decide (group_id ∈ valid_group_identifiers)) as [Hv|Hn].
  - valid_cases Hv; eexists; (split; [reflexivity|]); split.
    all: try (split; intros H;
      [first [discriminate H | right; apply (bool_decide_unpack _); vm_compute; exact I]
      |first [reflexivity
             | exfalso; destruct H as [H|H]; revert H;
               apply (bool_decide_unpack _); vm_compute; exact I]]).
    all: intros group d [= <-] [= <-]; first [by right | by left].
  - exists []. unfold get_movements_by_group. rewrite (get_element_group_unknown _ Hn).
    split; [done|]. split; [split; [by left|done]|]. intros group d [=].
Qed.

Lemma get_element_group_truthy group_id group :
  get_element_group group_id = Some group → pyval_truthy group = true.
Proof.
  intros Hg. destruct (get_element_group_in_Some _ _ _ Hg) as (key & Hin & _).
  change (pyval_truthy (key, group).2 = true).
  revert Hin. generalize (key, group). apply Forall_forall.
  repeat constructor.
Qed.

(** X2: for a non-empty group key, [get_element_vocabulary] returns the
    one-field error dict quoting the key when the key is no valid
    identifier, at any detail level; for a valid identifier and a detail
    level other than "summary" it returns the record of [get_element_group]
    unchanged. *)
Theorem get_element_vocabulary_group (element_group detail_level : string) :
  element_group ≠ "" →
  (element_group ∉ valid_group_identifiers →
     get_element_vocabulary (Some element_group) detail_level
     = Some (Vocabulary (not_found_message element_group)))
  ∧ (element_group ∈ valid_group_identifiers → detail_level ≠ "summary" →
     ∃ group, get_element_group element_group = Some group
       ∧ get_element_vocabulary (Some element_group) detail_level
         = Some (Vocabulary group)).
Proof.
  intros Hne. unfold get_element_vocabulary, requested.
  rewrite (proj2 (String.eqb_neq _ _) Hne). split.
  - intros Hn. by rewrite (get_element_group_unknown _ Hn).
  - intros Hv Hl.
    destruct (get_element_group element_group) as [group|] eqn:Hg.
    + exists group. split; [done|].
      rewrite (get_element_group_truthy _ _ Hg). simpl.
      by rewrite (proj2 (String.eqb_neq _ _) Hl).
    + exfalso. revert Hg. clear Hne. valid_cases Hv; done.
Qed.

Lemma get_element_vocabulary_group_witness :
  get_element_vocabulary (Some "EG_VI") "full"
  = Some (Vocabulary (not_found_message "EG_VI")).
Proof.
  apply (proj1 (get_element_vocabulary_group "EG_VI" "full" ltac:(done))).
  apply (bool_decide_unpack _). vm_compute. exact I.
Defined.

(** X3: the summary of a valid identifier copies the id, name, description
    and visual signature of the group's record, and its [movement_count] is
    the number of entries [get_movements_by_group] returns for the same
    identifier (so 0 for the dismounts group). *)
Theorem get_element_vocabulary_summary (element_group : string) :
  element_group ∈ valid_group_identifiers →
  ∃ s m d,
    get_element_vocabulary (Some element_group) "summary" = Some (VocabularySummary s)
    ∧ get_movements_by_group element_group = Some (VDict m)
    ∧ movement_count s = length m
    ∧ get_element_group element_group = Some (VDict d)
    ∧ dict_get d "id" = Some (summary_id s)
    ∧ dict_get d "name" = Some (summary_name s)
    ∧ dict_get d "description" = Some (summary_description s)
    ∧ dict_get d "visual_signature" = Some (summary_visual_signature s).
Proof.
  intros Hv. valid_cases Hv; do 3 eexists; repeat split.
Qed.

Lemma get_element_vocabulary_summary_witness :
  ∃ s, get_element_vocabulary (Some "dismounts") "summary" = Some (VocabularySummary s)
       ∧ movement_count s = 0 ∧ summary_id s = VStr "EG_V".
Proof.
  destruct (get_element_vocabulary_summary "dismounts") as (s & m & d & Hs & Hm & Hc & Hg & Hid & _).
  - apply (bool_decide_unpack _). vm_compute. exact I.
  - exists s. split; [exact Hs|]. split.
    + rewrite Hc. injection Hm as <-. reflexivity.
    + injection Hg as <-. injection Hid as <-. reflexivity.
Defined.

(** X4: without a group key ([None] or the empty string) the full listing
    is the whole table; the summary listing has one entry per group, in table
    order and under the same keys, each with exactly the fields id, name and
    description, the ids being EG_I to EG_V. *)
Theorem get_element_vocabulary_all (element_group : option string) (detail_level : string) :
  requested element_group = None →
  (detail_level ≠ "summary" →
     get_element_vocabulary element_group detail_level = Some (Vocabulary (VDict ELEMENT_GROUPS)))
  ∧ ∃ summaries,
      get_element_vocabulary element_group "summary" = Some (Vocabulary (VDict summaries))
      ∧ map fst summaries = group_semantic_names
      ∧ Forall (fun entry => keys_of entry.2 = ["id"; "name"; "description"]) summaries
      ∧ map (fun entry => group_id_field entry.2) summaries
        = map (fun s => Some (VStr s)) group_short_ids.
Proof.
  intros Hr. unfold get_element_vocabulary. rewrite Hr. split.
  - intros Hl. by rewrite (proj2 (String.eqb_neq _ _) Hl).
  - eexists. split; [reflexivity|]. split; [reflexivity|]. split; [|reflexivity].
    repeat constructor.
Qed.

Lemma get_element_vocabulary_all_witness :
  get_element_vocabulary (Some "") "full" = Some (Vocabulary (VDict ELEMENT_GROUPS)).
Proof.
  apply (proj1 (get_element_vocabulary_all (Some "") "full" eq_refl)).
  apply (bool_decide_unpack _). vm_compute. exact I.
Defined.

End element_vocabulary_facts.

(** ** Deduction categories *)

Section deduction_category_facts.

Lemma existsb_values_strings (d : dict) s :
  dict_mem d s || existsb (fun v => pyval_eq_str (Some v) s) (map snd d) = true ↔
  s ∈ category_strings (VDict d).
Proof.
  unfold category_strings. rewrite elem_of_app, orb_true_iff.
  cut ((dict_mem d s = true ↔ s ∈ map fst d)
       ∧ (existsb (fun v => pyval_eq_str (Some v) s) (map snd d) = true ↔
          s ∈ omap (fun e => match e.2 with VStr s => Some s | _ => None end) d));
    [tauto|]. split.
  - unfold dict_mem. rewrite bool_decide_eq_true.
    induction d as [|[k v] d IH]; simpl.
    + split; [by intros []|by intros ?%elem_of_nil].
    + rewrite elem_of_cons. destruct (String.eqb_spec k s) as [->|Hne].
      * split; [by left|by eexists].
      * rewrite IH. naive_solver.
  - rewrite existsb_exists, list_elem_of_omap. split.
    + intros (v & Hv & Hs). apply in_map_iff in Hv as ([k v'] & <- & Hin).
      exists (k, v'). split; [by apply list_elem_of_In|]. simpl in *.
      destruct v'; try done. simpl in Hs. by apply String.eqb_eq in Hs as ->.
    + intros ([k v] & Hin & Hs). simpl in Hs. destruct v; try done.
      injection Hs as ->. exists (VStr s). split.
      * apply in_map_iff. exists (k, VStr s). split; [done|]. by apply list_elem_of_In.
      * simpl. apply String.eqb_refl.
Qed.

Lemma get_deduction_category_in_unknown categories s :
  Forall (fun c => is_Some (as_dict c.2)) categories →
  s ∉ catalogue_strings categories →
  get_deduction_category_in categories s = Some "unknown".
Proof.
  induction 1 as [|[c errors] categories [d Hd] _ IH]; simpl; [done|].
  unfold catalogue_strings. simpl. rewrite elem_of_app. intros Hn.
  simpl in Hd. destruct errors; try done. injection Hd as <-. simpl.
  destruct (_ || _) eqn:Hm.
  - apply existsb_values_strings in Hm. naive_solver.
  - apply IH. naive_solver.
Qed.

Lemma categories_are_dicts : Forall (fun c => is_Some (as_dict c.2)) EXECUTION_DEDUCTIONS.
Proof. repeat constructor; by eexists. Qed.

Lemma catalogue_strings_NoDup : NoDup (catalogue_strings EXECUTION_DEDUCTIONS).
Proof. apply (bool_decide_unpack _). vm_compute. exact I. Qed.

(** X5: [get_deduction_category] never raises; it answers with one of the
    four categories or with "unknown". A string that is a deduction name or a
    deduction description of a category gets that category, and "unknown" is
    the answer exactly for the strings that are neither a name nor a
    description anywhere in the catalogue. *)
Theorem get_deduction_category_spec (error_type : string) :
  ∃ c, get_deduction_category error_type = Some c
    ∧ (c ∈ deduction_category_names ∨ c = "unknown")
    ∧ (∀ category errors,
         (category, errors) ∈ EXECUTION_DEDUCTIONS →
         error_type ∈ category_strings errors → c = category)
    ∧ (c = "unknown" ↔ error_type ∉ catalogue_strings EXECUTION_DEDUCTIONS).
Proof.
  destruct (decide (error_type ∈ catalogue_strings EXECUTION_DEDUCTIONS)) as [Hin|Hn].
  - assert (∃ c, get_deduction_category error_type = Some c
              ∧ c ∈ deduction_category_names
              ∧ (∀ category errors, (category, errors) ∈ EXECUTION_DEDUCTIONS →
                   error_type ∈ category_strings errors → c = category)) as (c & Hc & Hk & Hall).
    { vm_compute in Hin.
      repeat (apply elem_of_cons in Hin as [->|Hin]);
        [..|by apply elem_of_nil in Hin];
        (eexists; split; [reflexivity|]; split;
         [apply (bool_decide_unpack _); vm_compute; exact I|]);
        intros category errors Hcat;
        repeat (apply elem_of_cons in Hcat as [[= -> ->]|Hcat]);
        try (by apply elem_of_nil in Hcat);
        intros Hs; first [reflexivity | exfalso; revert Hs;
                          apply (bool_decide_unpack _); vm_compute; exact I]. }
    exists c. split; [done|]. split; [by left|]. split; [done|].
    split; [|done]. intros ->. exfalso. revert Hk.
    apply (bool_decide_unpack _). vm_compute. exact I.
  - exists "unknown". split.
    { apply get_deduction_category_in_unknown; [apply categories_are_dicts|done]. }
    split; [by right|]. split; [|done].
    intros category errors Hcat Hs. destruct Hn.
    unfold catalogue_strings. apply list_elem_of_In, in_concat.
    exists (category_strings errors). split; [|by apply list_elem_of_In].
    apply in_map_iff. exists (category, errors). split; [done|]. by apply list_elem_of_In.
Qed.

Lemma deduction_categories_fold (ds : list string) (m0 : gmap string string) :
  Forall (fun d => is_Some (get_deduction_category d)) ds →
  ∃ m, foldl (fun acc deduction =>
                m ← acc; category ← get_deduction_category deduction;
                Some (<[deduction := category]> m)) (Some m0) ds = Some m
     ∧ ∀ d, m !! d = if decide (d ∈ ds) then get_deduction_category d else m0 !! d.
Proof.
  revert m0. induction ds as [|d0 ds IH]; intros m0 Hall.
  - exists m0. split; [done|]. intros d. by rewrite decide_False by apply not_elem_of_nil.
  - apply Forall_cons in Hall as [[c Hc] Hall]. simpl. rewrite Hc. simpl.
    destruct (IH (<[d0:=c]> m0) Hall) as (m & Hm & Hlook).
    exists m. split; [done|]. intros d. rewrite Hlook.
    destruct (decide (d ∈ ds)) as [Hin|Hnin].
    + rewrite decide_True; [done|by right].
    + destruct (decide (d = d0)) as [->|Hne].
      * rewrite decide_True by left. by rewrite lookup_insert_eq.
      * rewrite decide_False; [by rewrite lookup_insert_ne|].
        intros [?|?]%elem_of_cons; done.
Qed.

Lemma fired_subset e : Forall (fun r => r ∈ form_rules) (fired e).
Proof.
  apply Forall_forall. intros r Hr. unfold fired in Hr.
  apply list_elem_of_In, filter_In in Hr as [Hr _]. by apply list_elem_of_In.
Qed.

Lemma emitted_categories :
  Forall (fun r => (rule_deduction r, get_deduction_category (rule_deduction r))
                   ∈ map (fun p => (p.1, Some p.2)) emitted_deduction_categories) form_rules.
Proof. repeat constructor; apply (bool_decide_unpack _); vm_compute; exact I. Qed.

(** X6: every deduction that [assess_form_quality] lists is categorised:
    the category dict that [assess_execution_form] builds from an assessment
    has exactly the listed deductions as keys, maps each to its category of
    the catalogue, and never holds "unknown". *)
Theorem deduction_categories_known (e : gmap string atom) :
  ∃ m, deduction_categories (assess_form_quality e) = Some m
    ∧ dom m = list_to_set (deductions (assess_form_quality e))
    ∧ (∀ d c, m !! d = Some c → (d, c) ∈ emitted_deduction_categories)
    ∧ (∀ d, m !! d ≠ Some "unknown").
Proof.
  assert (Forall (fun d => ∃ c, get_deduction_category d = Some c
                             ∧ (d, c) ∈ emitted_deduction_categories)
                 (deductions (assess_form_quality e))) as Hall.
  { rewrite assess_form_quality_table. simpl.
    apply Forall_fmap. eapply Forall_impl; [apply fired_subset|].
    intros r Hr. simpl.
    pose proof (proj1 (Forall_forall _ _) emitted_categories r Hr) as Hin.
    apply list_elem_of_fmap in Hin as ([d c] & [= Hd Hc] & Hin). simpl in *.
    exists c. split; [done|]. by rewrite Hd. }
  destruct (deduction_categories_fold (deductions (assess_form_quality e)) ∅)
    as (m & Hm & Hlook).
  { eapply Forall_impl; [exact Hall|]. intros d (c & Hc & _). by eexists. }
  assert (∀ d c, m !! d = Some c → (d, c) ∈ emitted_deduction_categories) as Hknown.
  { intros d c. rewrite Hlook. case_decide as Hd; [|done].
    destruct (proj1 (Forall_forall _ _) Hall d Hd) as (c' & Hc' & Hin).
    rewrite Hc'. by intros [= <-]. }
  exists m. split; [exact Hm|]. split; [|split; [exact Hknown|]].
  - apply set_eq. intros d. rewrite elem_of_dom, elem_of_list_to_set, Hlook.
    case_decide as Hd; [|by split; [intros []|]].
    destruct (proj1 (Forall_forall _ _) Hall d Hd) as (c' & Hc' & _).
    rewrite Hc'. split; [done|by eexists].
  - intros d Hd. apply Hknown in Hd. unfold emitted_deduction_categories in Hd.
    repeat (apply elem_of_cons in Hd as [[=]|Hd]). by apply elem_of_nil in Hd.
Qed.

Lemma NoDup_fmap_filter {A B} (f : A → B) (P : A → bool) (l : list A) :
  NoDup (f <$> l) → NoDup (f <$> List.filter P l).
Proof.
  induction l as [|x l IH]; simpl; [done|].
  intros [Hx Hnd]%NoDup_cons. destruct (P x); [|by apply IH].
  rewrite fmap_cons. apply NoDup_cons. split; [|by apply IH].
  intros Hin. apply Hx. apply list_elem_of_fmap in Hin as (y & -> & Hy).
  apply list_elem_of_fmap_2. apply list_elem_of_In, filter_In in Hy as [Hy _].
  by apply list_elem_of_In.
Qed.

Lemma clean_iff_perfect_bool (e : gmap string atom) :
  String.eqb (form_assessment.form_assessment (assess_form_quality e)) "clean"
  = is_perfect (quality_score (assess_form_quality e)).
Proof.
  unfold assess_form_quality; simpl;
  generalize (truthy (get e "body_extended" (ABool true)))
             (truthy (get e "legs_straight" (ABool true)))
             (truthy (get e "toes_pointed" (ABool true)))
             (bool_decide (e !! "element_type" = Some (AStr "scissor")))
             (truthy (get e "above_shoulder" (ABool true)))
             (truthy (get e "brushing" (ABool false)))
             (truthy (get e "hitting" (ABool false)));
  intros [] [] [] [] [] [] []; reflexivity.
Qed.

(** X7: an assessment is "clean" exactly when its score equals 10.0, which
    is exactly when it lists no deduction: every deduction lowers the score.
    The deductions listed are distinct and at most six. *)
Theorem clean_iff_perfect_score (e : gmap string atom) :
  let r := assess_form_quality e in
  (form_assessment.form_assessment r = "clean" ↔ is_perfect (quality_score r) = true)
  ∧ (deductions r = [] ↔ is_perfect (quality_score r) = true)
  ∧ NoDup (deductions r)
  ∧ length (deductions r) ≤ 6.
Proof.
  intros r. subst r. rewrite <- clean_iff_perfect_bool, String.eqb_eq.
  rewrite assess_form_quality_table. simpl. split; [done|]. split; [|split].
  - destruct (fired e); simpl; split; done.
  - apply NoDup_fmap_filter, form_rule_names_NoDup.
  - rewrite length_fmap. unfold fired.
    change 6 with (length form_rules). apply filter_length_le.
Qed.

End deduction_category_facts.

(** ** Difficulty profile and order of the elements *)

Section routine_profile_facts.

Implicit Types seq : list (gmap string atom).
Implicit Types sp tp : bool.

Lemma scan_element_profile (st : gset string * gmap atom nat) el :
  (scan_element st el).2
  = <[difficulty el := default 0 (st.2 !! difficulty el) + 1]> st.2.
Proof. reflexivity. Qed.

Lemma foldl_scan_element_profile (st : gset string * gmap atom nat) seq d :
  (foldl scan_element st seq).2 !! d
  = match occurrences d seq with
    | 0 => st.2 !! d
    | S n => Some (default 0 (st.2 !! d) + S n)
    end.
Proof.
  revert st. induction seq as [|el seq IH]; intros st; [done|].
  simpl. rewrite IH, scan_element_profile. unfold occurrences.
  rewrite filter_cons. destruct (decide (difficulty el = d)) as [->|Hne].
  - rewrite lookup_insert_eq. simpl.
    destruct (length _); simpl; f_equal; lia.
  - rewrite lookup_insert_ne by done. done.
Qed.

Lemma total_count_increment (m : gmap atom nat) d :
  total_count (<[d := default 0 (m !! d) + 1]> m) = total_count m + 1.
Proof.
  unfold total_count.
  assert (∀ (m' : gmap atom nat) (j1 j2 : atom) (z1 z2 y : nat),
            j1 ≠ j2 → m' !! j1 = Some z1 → m' !! j2 = Some z2 →
            z1 + (z2 + y) = z2 + (z1 + y)) as Hcomm by (intros; lia).
  destruct (m !! d) as [n|] eqn:Hd; simpl.
  - rewrite <- insert_delete_eq.
    rewrite map_fold_insert_L; [|by eauto|by rewrite lookup_delete_eq].
    rewrite (map_fold_delete_L _ _ d n m); [lia|by eauto|done].
  - rewrite map_fold_insert_L; [lia|by eauto|done].
Qed.

Lemma foldl_scan_element_total (st : gset string * gmap atom nat) seq :
  total_count (foldl scan_element st seq).2 = total_count st.2 + length seq.
Proof.
  revert st. induction seq as [|el seq IH]; intros st; simpl; [lia|].
  rewrite IH, scan_element_profile, total_count_increment. lia.
Qed.

Lemma difficulty_profile_lookup seq sp tp (d : atom) :
  difficulty_profile (map_routine_structure seq sp tp) !! d
  = (if decide (occurrences d seq = 0) then None else Some (occurrences d seq)).
Proof.
  simpl. unfold scan. rewrite foldl_scan_element_profile. simpl.
  destruct (occurrences d seq); [done|]. by rewrite lookup_empty.
Qed.

(** X8: the difficulty profile is the histogram of the difficulty values
    (an absent value counting as "A"): a value has an entry exactly when some
    element carries it, the entry is the number of such elements, the counts
    sum to the number of elements, and [element_count] is that number. *)
Theorem difficulty_profile_histogram seq sp tp (d : atom) :
  let a := map_routine_structure seq sp tp in
  difficulty_profile a !! d
    = (if decide (occurrences d seq = 0) then None else Some (occurrences d seq))
  ∧ total_count (difficulty_profile a) = length seq
  ∧ element_count a = length seq.
Proof.
  intros a. split; [apply difficulty_profile_lookup|]. split; [|done].
  subst a. simpl. unfold scan. by rewrite foldl_scan_element_total.
Qed.

Lemma occurrences_Permutation d seq1 seq2 :
  seq1 ≡ₚ seq2 → occurrences d seq1 = occurrences d seq2.
Proof. intros H. unfold occurrences. by rewrite H. Qed.

Lemma any_pause_Permutation seq1 seq2 :
  seq1 ≡ₚ seq2 → any_pause seq1 = any_pause seq2.
Proof.
  intros H. apply eq_true_iff_eq. rewrite !any_pause_iff.
  split; intros (el & Hel & Hp); exists el; (split; [|done]).
  - by rewrite <- H.
  - by rewrite H.
Qed.

Lemma tempo_set_Permutation seq1 seq2 :
  seq1 ≡ₚ seq2 → tempo_set seq1 = tempo_set seq2.
Proof. intros H. unfold tempo_set. by rewrite H. Qed.

Lemma zones_present_Permutation seq1 seq2 :
  seq1 ≡ₚ seq2 → zones_present seq1 = zones_present seq2.
Proof. intros H. unfold zones_present. by rewrite H. Qed.

Lemma groups_present_Permutation seq1 seq2 :
  seq1 ≡ₚ seq2 → groups_present seq1 = groups_present seq2.
Proof. intros H. unfold groups_present. by rewrite H. Qed.

Lemma analyze_tempo_strategy_Permutation seq1 seq2 :
  seq1 ≡ₚ seq2 → analyze_tempo_strategy seq1 = analyze_tempo_strategy seq2.
Proof.
  intros H. unfold analyze_tempo_strategy.
  by rewrite (any_pause_Permutation _ _ H), (tempo_set_Permutation _ _ H),
    (Permutation_length H).
Qed.

Lemma coverage_Permutation seq1 seq2 :
  seq1 ≡ₚ seq2 →
  coverage_complete (analyze_spatial_coverage seq1)
  = coverage_complete (analyze_spatial_coverage seq2)
  ∧ all_sections_used (analyze_spatial_coverage seq1)
    = all_sections_used (analyze_spatial_coverage seq2).
Proof.
  intros H. unfold analyze_spatial_coverage. simpl.
  by rewrite !zones_used_present, (zones_present_Permutation _ _ H).
Qed.

(** X9: reordering the elements of a routine changes neither the verdict,
    nor the notes, nor the element count, nor the difficulty profile, nor the
    temporal strategy, and the groups present stay the same up to order. *)
Theorem map_routine_structure_order_independent seq1 seq2 sp tp :
  seq1 ≡ₚ seq2 →
  let a1 := map_routine_structure seq1 sp tp in
  let a2 := map_routine_structure seq2 sp tp in
  structure_valid a1 = structure_valid a2
  ∧ notes a1 = notes a2
  ∧ synthesis_ready a1 = synthesis_ready a2
  ∧ element_count a1 = element_count a2
  ∧ difficulty_profile a1 = difficulty_profile a2
  ∧ element_groups_present a1 ≡ₚ element_groups_present a2
  ∧ temporal_strategy a1 = temporal_strategy a2.
Proof.
  intros H a1 a2.
  destruct (map_routine_structure_verdict seq1 sp tp) as [Hv1 Hn1].
  destruct (map_routine_structure_verdict seq2 sp tp) as [Hv2 Hn2].
  fold a1 in Hv1, Hn1. fold a2 in Hv2, Hn2.
  destruct (coverage_Permutation _ _ H) as [Hc _].
  pose proof (groups_present_Permutation _ _ H) as Hg.
  pose proof (analyze_tempo_strategy_Permutation _ _ H) as Ht.
  assert (structure_valid a1 = structure_valid a2) as Hv
    by (rewrite Hv1, Hv2, Hc, Hg, Ht; done).
  split; [done|]. split; [by rewrite Hn1, Hn2, Hc, Hg, Ht|].
  split; [done|]. split; [simpl; by rewrite (Permutation_length H)|]. split; [|split].
  - apply map_eq. intros d.
    subst a1 a2. rewrite !difficulty_profile_lookup.
    by rewrite (occurrences_Permutation _ _ _ H).
  - subst a1 a2. by rewrite !element_groups_present_eq, Hg.
  - subst a1 a2. unfold map_routine_structure. simpl. by rewrite Ht.
Qed.

(** The theorem at a complete routine and its reverse. *)
Lemma map_routine_structure_order_independent_witness :
  structure_valid (map_routine_structure full_routine true true)
  = structure_valid (map_routine_structure (reverse full_routine) true true).
Proof.
  apply (map_routine_structure_order_independent
           full_routine (reverse full_routine) true true).
  symmetry. apply reverse_Permutation.
Defined.

Lemma size_list_to_set_le `{Countable A} (l : list A) :
  size (list_to_set l : gset A) ≤ length l.
Proof.
  induction l as [|x l IH]; [by rewrite list_to_set_nil, size_empty|].
  rewrite list_to_set_cons, size_union_alt, size_singleton. simpl.
  apply le_n_S. etrans; [|exact IH]. apply subseteq_size. set_solver.
Qed.

Lemma length_omap_le {A B} (f : A → option B) (l : list A) :
  length (omap f l) ≤ length l.
Proof. induction l as [|x l IH]; csimpl; [done|]. destruct (f x); csimpl; lia. Qed.

(** X10: a valid structure has at least four elements, four of them with a
    classified element type, and, when the spatial analysis is on, at least
    three with a zone. *)
Theorem valid_structure_needs_four_elements seq sp tp :
  structure_valid (map_routine_structure seq sp tp) = true →
  4 ≤ element_count (map_routine_structure seq sp tp)
  ∧ 4 ≤ length (omap group_of_element seq)
  ∧ (sp = true → 3 ≤ length (omap (fun el => el !! "zone") seq)).
Proof.
  intros Hv.
  destruct (map_routine_structure_verdict seq sp tp) as [Hval _].
  rewrite Hv in Hval. symmetry in Hval.
  apply andb_true_iff in Hval as [Hval _]. apply andb_true_iff in Hval as [Hg Hc].
  apply bool_decide_eq_true in Hg.
  assert (4 ≤ length (omap group_of_element seq)) as H4.
  { etrans; [exact Hg|]. apply size_list_to_set_le. }
  split; [|split; [done|]].
  - simpl. etrans; [exact H4|]. apply length_omap_le.
  - intros ->. simpl in Hc.
    assert (3 ≤ size (zones_present seq)) as H3.
    { apply coverage_complete_iff in Hc. apply subseteq_size in Hc.
      etrans; [|exact Hc]. done. }
    etrans; [exact H3|]. apply size_list_to_set_le.
Qed.

(** The theorem at a complete routine. *)
Lemma valid_structure_needs_four_elements_witness :
  4 ≤ element_count (map_routine_structure full_routine true true).
Proof.
  apply (valid_structure_needs_four_elements full_routine true true).
  vm_compute. reflexivity.
Defined.

(** X11: every group that [map_routine_structure] reports as present is a
    semantic name of the taxonomy: [get_element_group] finds its record
    under that very key. *)
Theorem present_groups_resolve seq sp tp (g : string) :
  g ∈ element_groups_present (map_routine_structure seq sp tp) →
  ∃ group, get_element_group g = Some group
         ∧ (g, group) ∈ ELEMENT_GROUPS
         ∧ g ∈ group_semantic_names.
Proof.
  rewrite element_groups_present_eq, elem_of_elements. intros Hg.
  apply groups_present_reachable in Hg. unfold reachable_groups in Hg.
  rewrite !elem_of_union, !elem_of_singleton in Hg.
  destruct Hg as [[[->| ->]| ->]| ->]; eexists; (split; [reflexivity|]);
    (split; [|apply (bool_decide_unpack _); vm_compute; exact I]).
  - do 1 right. left.
  - left.
  - do 2 right. left.
  - do 4 right. left.
Qed.

(** The theorem at the travels group of a complete routine. *)
Lemma present_groups_resolve_witness :
  ∃ group, get_element_group "travels" = Some group
         ∧ ("travels", group) ∈ ELEMENT_GROUPS
         ∧ "travels" ∈ group_semantic_names.
Proof.
  apply (present_groups_resolve full_routine true true "travels").
  apply (bool_decide_unpack _). vm_compute. exact I.
Defined.

End routine_profile_facts.

(** ** Catalogue lookups and the temporal framework *)

Section lookup_facts.

Lemma dict_get_None (table : dict) k : dict_get table k = None ↔ k ∉ map fst table.
Proof.
  induction table as [|[k' v] table IH]; simpl.
  - split; [intros _; apply not_elem_of_nil|done].
  - rewrite not_elem_of_cons. destruct (String.eqb_spec k' k) as [->|Hne].
    + split; [done|]. by intros [? _].
    + rewrite IH. naive_solver.
Qed.

(** A lookup with default {} in a table of non-empty dicts. *)
Lemma lookup_or_empty (table : dict) k :
  Forall (fun e => pyval_truthy e.2 = true) table →
  let v := default (VDict []) (dict_get table k) in
  (pyval_truthy v = true ↔ k ∈ map fst table)
  ∧ (k ∉ map fst table → v = VDict [])
  ∧ (k ∈ map fst table → dict_get table k = Some v).
Proof.
  intros Hall v. subst v.
  destruct (dict_get table k) as [v|] eqn:Hk; simpl.
  - assert (k ∈ map fst table) as Hin.
    { destruct (decide (k ∈ map fst table)) as [|Hn]; [done|].
      apply dict_get_None in Hn. congruence. }
    split; [by rewrite (dict_get_truthy _ _ _ Hall Hk)|]. split; done.
  - apply dict_get_None in Hk. split; [split; [done|by intros ?]|]. split; done.
Qed.

Lemma rhythm_patterns_truthy : Forall (fun e => pyval_truthy e.2 = true) rhythm_patterns.
Proof. repeat constructor. Qed.

Lemma critical_phases_truthy : Forall (fun e => pyval_truthy e.2 = true) critical_phases.
Proof. repeat constructor. Qed.

Lemma get_rhythm_pattern_eq name :
  get_rhythm_pattern name = Some (default (VDict []) (dict_get rhythm_patterns name)).
Proof. reflexivity. Qed.

Lemma get_critical_phase_eq name :
  get_critical_phase name = Some (default (VDict []) (dict_get critical_phases name)).
Proof. reflexivity. Qed.

(** X12: [get_support_config] and [get_trajectory_pattern] never raise:
    for one of the four names of the catalogue each returns the entry of the
    table, a non-empty dict, and for any other string the empty dict. *)
Theorem spatial_lookups_or_empty (name : string) :
  (∃ v, get_support_config name = Some v
      ∧ (pyval_truthy v = true ↔ name ∈ support_configuration_names)
      ∧ (name ∉ support_configuration_names → v = VDict [])
      ∧ (name ∈ support_configuration_names →
           dict_get support_configurations name = Some v))
  ∧ (∃ v, get_trajectory_pattern name = Some v
      ∧ (pyval_truthy v = true ↔ name ∈ trajectory_pattern_names)
      ∧ (name ∉ trajectory_pattern_names → v = VDict [])
      ∧ (name ∈ trajectory_pattern_names →
           dict_get trajectory_patterns name = Some v)).
Proof.
  split; eexists.
  - split; [apply get_support_config_eq|].
    apply (lookup_or_empty support_configurations name support_configurations_truthy).
  - split; [apply get_trajectory_pattern_eq|].
    apply (lookup_or_empty trajectory_patterns name trajectory_patterns_truthy).
Qed.

(** X13: [get_rhythm_pattern] and [get_critical_phase] never raise: for
    one of the four names of the catalogue each returns the entry of the
    table, a non-empty dict, and for any other string the empty dict. *)
Theorem temporal_lookups_or_empty (name : string) :
  (∃ v, get_rhythm_pattern name = Some v
      ∧ (pyval_truthy v = true ↔ name ∈ rhythm_pattern_names)
      ∧ (name ∉ rhythm_pattern_names → v = VDict [])
      ∧ (name ∈ rhythm_pattern_names → dict_get rhythm_patterns name = Some v))
  ∧ (∃ v, get_critical_phase name = Some v
      ∧ (pyval_truthy v = true ↔ name ∈ critical_phase_names)
      ∧ (name ∉ critical_phase_names → v = VDict [])
      ∧ (name ∈ critical_phase_names → dict_get critical_phases name = Some v)).
Proof.
  split; eexists.
  - split; [apply get_rhythm_pattern_eq|].
    apply (lookup_or_empty rhythm_patterns name rhythm_patterns_truthy).
  - split; [apply get_critical_phase_eq|].
    apply (lookup_or_empty critical_phases name critical_phases_truthy).
Qed.

Opaque rhythm_patterns critical_phases.

Lemma get_temporal_framework_fields rt pf :
  ∃ r, get_temporal_framework rt pf = Some r
    ∧ r !! "temporal_qualities" = Some (VDict TEMPORAL_QUALITIES)
    ∧ r !! "timing_metrics" = Some (VDict TIMING_METRICS)
    ∧ r !! "rhythm_details" = found_in rhythm_patterns rt
    ∧ r !! "phase_details" = found_in critical_phases pf
    ∧ r !! "error" = last (owed_temporal_errors rt pf)
    ∧ dom r ⊆ {[ "temporal_qualities"; "timing_metrics"; "rhythm_details";
                 "phase_details"; "error" ]}.
Proof.
  unfold get_temporal_framework, owed_temporal_errors, found_in, unknown_in.
  generalize (VDict TEMPORAL_QUALITIES) (VDict TIMING_METRICS). intros Q M.
  destruct (requested rt) as [rk|], (requested pf) as [pk|];
    cbv beta iota;
    rewrite ?get_rhythm_pattern_eq, ?get_critical_phase_eq; simpl;
    try (destruct (dict_get rhythm_patterns rk) as [rv|] eqn:Hr; simpl;
         [rewrite (dict_get_truthy _ _ _ rhythm_patterns_truthy Hr)|]);
    try (destruct (dict_get critical_phases pk) as [pv|] eqn:Hp; simpl;
         [rewrite (dict_get_truthy _ _ _ critical_phases_truthy Hp)|]);
  eexists; (split; [reflexivity|]);
  repeat split; try (by simplify_map_eq); rewrite ?dom_insert_L, ?dom_empty_L; set_solver.
Qed.

Transparent rhythm_patterns critical_phases.

Lemma unknown_in_unknown (table : dict) arg k :
  requested arg = Some k → k ∉ map fst table →
  unknown_in table arg = Some k ∧ found_in table arg = None.
Proof.
  intros Hk Hn. unfold unknown_in, found_in. rewrite Hk. simpl.
  by rewrite (proj2 (dict_get_None table k) Hn).
Qed.



(** X15: the rhythm pattern that [analyze_tempo_strategy] returns is always
    a pattern of the taxonomy: [get_rhythm_pattern] has a non-empty entry for
    it, and [get_temporal_framework] asked about it answers with that entry
    and no error. *)
Theorem returned_rhythm_is_documented (rs : list (gmap string atom)) :
  let p := rhythm_pattern (analyze_tempo_strategy rs) in
  p ∈ rhythm_pattern_names
  ∧ ∃ v r, get_rhythm_pattern p = Some v
         ∧ pyval_truthy v = true
         ∧ get_temporal_framework (Some p) None = Some r
         ∧ r !! "rhythm_details" = Some v
         ∧ r !! "error" = None.
Proof.
  intros p.
  assert (p ∈ rhythm_pattern_names) as Hp.
  { subst p. rewrite rhythm_pattern_eq.
    case_bool_decide; apply (bool_decide_unpack _); vm_compute; exact I. }
  split; [done|].
  destruct (get_temporal_framework_fields (Some p) None)
    as (r & Hr & _ & _ & Hrd & _ & He & _).
  destruct (lookup_or_empty rhythm_patterns p rhythm_patterns_truthy)
    as (Ht & _ & Hv).
  assert (requested (Some p) = Some p) as Hreq.
  { unfold requested. destruct (String.eqb_spec p "") as [Hnil|]; [|done].
    exfalso. rewrite Hnil in Hp. revert Hp.
    apply (bool_decide_unpack _). vm_compute. exact I. }
  exists (default (VDict []) (dict_get rhythm_patterns p)), r.
  split; [apply get_rhythm_pattern_eq|]. split; [by apply Ht|]. split; [done|].
  split.
  - rewrite Hrd. unfold found_in. rewrite Hreq. by apply Hv.
  - rewrite He. unfold owed_temporal_errors, unknown_in. rewrite Hreq.
    change (mbind ?f (Some p)) with (f p). cbv beta.
    by rewrite (Hv Hp).
Qed.

End lookup_facts.

(** ** Composition of the validators *)

Section composition_facts.

Implicit Types els rs more : list (gmap string atom).

Lemma requested_empty : requested (Some "") = requested None.
Proof. reflexivity. Qed.

(** X16: the ["error"] field of [analyze_spatial_composition] holds the
    message written last: with all three keys unknown it is the trajectory
    message, and no focused entry is present. An empty string in any position
    gives the same response as [None] there. *)
Theorem analyze_spatial_composition_last_error z s t :
  (∃ r, analyze_spatial_composition z s t = Some r
      ∧ r !! "error" = last (owed_errors z s t)
      ∧ (∀ kz ks kt,
           requested z = Some kz → requested s = Some ks → requested t = Some kt →
           kz ∉ map fst apparatus_sections → ks ∉ map fst support_configurations →
           kt ∉ map fst trajectory_patterns →
           r !! "error" = Some (trajectory_error kt)
           ∧ r !! "focused_zone" = None ∧ r !! "support_details" = None
           ∧ r !! "trajectory_details" = None))
  ∧ analyze_spatial_composition (Some "") s t = analyze_spatial_composition None s t
  ∧ analyze_spatial_composition z (Some "") t = analyze_spatial_composition z None t
  ∧ analyze_spatial_composition z s (Some "") = analyze_spatial_composition z s None.
Proof.
  split; [|by repeat split].
  destruct (analyze_spatial_composition_fields z s t)
    as (r & Hr & _ & _ & Hz & Hs & Ht & He & _).
  exists r. split; [done|]. split; [done|].
  intros kz ks kt Hkz Hks Hkt Hnz Hns Hnt.
  destruct (unknown_in_unknown _ _ _ Hkz Hnz) as [Hzu Hzf].
  destruct (unknown_in_unknown _ _ _ Hks Hns) as [Hsu Hsf].
  destruct (unknown_in_unknown _ _ _ Hkt Hnt) as [Htu Htf].
  rewrite He, Hz, Hs, Ht. unfold owed_errors. rewrite Hzu, Hsu, Htu. by repeat split.
Qed.

Lemma analyze_spatial_composition_last_error_witness :
  ∃ r, analyze_spatial_composition (Some "pommel") (Some "no_hands") (Some "zigzag") = Some r
     ∧ r !! "error" = Some (trajectory_error "zigzag").
Proof.
  destruct (proj1 (analyze_spatial_composition_last_error
                     (Some "pommel") (Some "no_hands") (Some "zigzag")))
    as (r & Hr & _ & Hall).
  exists r. split; [exact Hr|].
  apply (Hall "pommel" "no_hands" "zigzag" eq_refl eq_refl eq_refl).
  - apply (bool_decide_unpack _). vm_compute. exact I.
  - apply (bool_decide_unpack _). vm_compute. exact I.
  - apply (bool_decide_unpack _). vm_compute. exact I.
Defined.

Lemma size_canonical_zones : size canonical_zones = 3.
Proof. reflexivity. Qed.

(** X17: complete coverage implies that all sections are used; the zones
    covered are distinct and no more than the elements; [all_sections_used]
    holds exactly when at least three zones are covered, and it is kept when
    the routine is extended at either end. *)
Theorem coverage_complete_implies_all_sections els more :
  let r := analyze_spatial_coverage els in
  (coverage_complete r = true → all_sections_used r = true)
  ∧ NoDup (zones_covered r)
  ∧ length (zones_covered r) ≤ length els
  ∧ (all_sections_used r = true ↔ 3 ≤ length (zones_covered r))
  ∧ (all_sections_used r = true →
       all_sections_used (analyze_spatial_coverage (els ++ more)) = true
       ∧ all_sections_used (analyze_spatial_coverage (more ++ els)) = true).
Proof.
  intros r. subst r. split; [|split; [|split; [|split]]].
  - rewrite coverage_complete_iff, all_sections_used_iff. intros Hc.
    rewrite <- size_canonical_zones. by apply subseteq_size.
  - unfold analyze_spatial_coverage. simpl. apply NoDup_elements.
  - unfold analyze_spatial_coverage. simpl. rewrite zones_used_present.
    change (size (zones_present els) ≤ length els).
    etrans; [apply size_list_to_set_le|apply length_omap_le].
  - rewrite all_sections_used_iff. unfold analyze_spatial_coverage. simpl.
    by rewrite zones_used_present.
  - rewrite !all_sections_used_iff, !zones_present_app. intros H3.
    split; (etrans; [exact H3|]); apply subseteq_size; set_solver.
Qed.

Lemma coverage_complete_implies_all_sections_witness :
  all_sections_used (analyze_spatial_coverage full_routine) = true.
Proof.
  apply (proj1 (coverage_complete_implies_all_sections full_routine [])).
  vm_compute. reflexivity.
Defined.

Lemma any_pause_app rs more : any_pause (rs ++ more) = any_pause rs || any_pause more.
Proof. unfold any_pause. apply existsb_app. Qed.

Lemma tempo_set_app rs more : tempo_set (rs ++ more) = tempo_set rs ∪ tempo_set more.
Proof. unfold tempo_set. rewrite map_app. apply list_to_set_app_L. Qed.

(** X18: for a routine made of two parts, continuity holds exactly when it
    holds for both parts; a metronomic whole has a metronomic non-empty first
    part, and a syncopated non-empty first part makes the whole syncopated; a
    fatigue flag of the first part stays; [temporal_aesthetic] is always
    empty. *)
Theorem analyze_tempo_strategy_composition rs more :
  let r := analyze_tempo_strategy (rs ++ more) in
  continuity_maintained r
    = continuity_maintained (analyze_tempo_strategy rs)
      && continuity_maintained (analyze_tempo_strategy more)
  ∧ (rhythm_pattern r = "metronomic" → rs ≠ [] →
       rhythm_pattern (analyze_tempo_strategy rs) = "metronomic")
  ∧ (rhythm_pattern (analyze_tempo_strategy rs) = "syncopated" → rs ≠ [] →
       rhythm_pattern r = "syncopated")
  ∧ (fatigue_risk_zones (analyze_tempo_strategy rs) = ["routine_end"] →
       fatigue_risk_zones r = ["routine_end"])
  ∧ temporal_aesthetic r = [].
Proof.
  intros r. subst r. rewrite !continuity_maintained_eq, !rhythm_pattern_eq,
    !fatigue_risk_zones_eq, any_pause_app, negb_orb.
  split; [done|].
  assert (rs ≠ [] → size (tempo_set (rs ++ more)) = 1 → size (tempo_set rs) = 1) as Hsub.
  { intros Hne H1.
    assert (size (tempo_set rs) ≤ 1).
    { rewrite <- H1. apply subseteq_size. rewrite tempo_set_app. set_solver. }
    assert (size (tempo_set rs) ≠ 0) by (by rewrite tempo_set_empty).
    lia. }
  split; [|split; [|split]].
  - repeat case_bool_decide; try done. intros _ Hne. exfalso. auto.
  - repeat case_bool_decide; try done. intros _ Hne. exfalso. auto.
  - rewrite length_app. repeat case_bool_decide; try done; lia.
  - unfold analyze_tempo_strategy.
    destruct (any_pause _), (bool_decide (size _ = 1)), (bool_decide (8 < _)); reflexivity.
Qed.

Lemma analyze_tempo_strategy_composition_witness :
  rhythm_pattern (analyze_tempo_strategy
    ([with_tempo "fast"; with_tempo "slow"] ++ [with_tempo "fast"])) = "syncopated".
Proof.
  apply (proj1 (proj2 (proj2 (analyze_tempo_strategy_composition
           [with_tempo "fast"; with_tempo "slow"] [with_tempo "fast"])))).
  - vm_compute. reflexivity.
  - discriminate.
Defined.

End composition_facts.
